(** * A catalogue of books kept in a line-delimited JSON file

    Shallow embedding of [library_manager.py]: the [Book] dataclass and the
    [LibraryManager] operations over the backing file.

    Modelling conventions.
    - Python [int] is [Z]; Python [str] is [string], the UTF-8 bytes of the
      text, on which [in] is the search for a run of bytes. What [str.lower],
      [str.isdigit] and [int] do depends on the tables of Unicode: the three
      are parameters of the development, [int] with [None] for [ValueError].
      A theorem that needs a fact about them states it as a hypothesis.
      [Sample] gives a reading of the three for the examples.
    - The dataclass annotations ([id: int], [title: str], ...) are read as
      types. A decoded line that is a dictionary with the five keys but a
      value of another JSON type has no [Book] here; [Book.from_dict] stops on
      it with [Mistyped].
    - The [json] module is not part of the program: [json.loads] and
      [json.dumps] are parameters of the development, used through two laws
      only (decoding an encoded dictionary gives it back; an encoded
      dictionary is one line). [Codec] gives an implementation of both that
      prints what [json.dumps(..., ensure_ascii=False)] prints for the
      dictionaries of [Book.to_dict].
    - The file system is one optional text (the backing file, which the
      manager's [data_file] names), as the text layer of Python presents it:
      line ends are newline characters. Each
      operation is a state transformer on it that also records what it
      prints and what it writes (reading leaves no record). *)

From Stdlib Require Import ZArith Ascii String DecimalString DecimalZ.
From stdpp Require Import base tactics option list gmap strings.

(** ** Python strings *)

Module Str.

Definition newline : ascii := "010"%char.

(** One of the characters [0] to [9]. *)
Definition is_digit_char (c : ascii) : bool :=
  let n := N_of_ascii c in ((48 <=? n) && (n <=? 57))%N.

(** [str(n)] for an integer. *)
Definition of_int (n : Z) : string := NilZero.string_of_int (Z.to_int n).

(** [hay.startswith(needle)] *)
Fixpoint startswith (hay needle : string) {struct needle} : bool :=
  match needle, hay with
  | "", _ => true
  | String _ _, "" => false
  | String a needle', String b hay' =>
      if Ascii.eqb a b then startswith hay' needle' else false
  end.

(** [needle in hay] *)
Fixpoint contains (hay needle : string) : bool :=
  startswith hay needle ||
  match hay with
  | "" => false
  | String _ hay' => contains hay' needle
  end.

(** The lines a text file yields when iterated: each line keeps its
    newline, the last one may lack it. *)
Fixpoint readlines (text : string) : list string :=
  match text with
  | "" => []
  | String c rest =>
      if Ascii.eqb c newline then String c "" :: readlines rest
      else match readlines rest with
           | [] => [String c ""]
           | line :: lines => String c line :: lines
           end
  end.

Fixpoint has_newline (s : string) : bool :=
  match s with
  | "" => false
  | String c s' => Ascii.eqb c newline || has_newline s'
  end.

(** A text whose last line, if any, is closed by a newline. *)
Fixpoint terminated (text : string) : bool :=
  match text with
  | "" => true
  | String c "" => Ascii.eqb c newline
  | String _ rest => terminated rest
  end.

End Str.

(** ** JSON values, as [json.loads] returns them *)

#[warnings="-register-all"]
Inductive json : Type :=
  | JNull
  | JBool (b : bool)
  | JInt (n : Z)
  | JStr (s : string)
  | JList (items : list json)
  | JDict (members : list (string * json)).

(** [d[key]] on a Python dict. *)
Fixpoint dict_get (members : list (string * json)) (key : string) : option json :=
  match members with
  | [] => None
  | (k, v) :: rest => if String.eqb k key then Some v else dict_get rest key
  end.

(** ** Exceptions and outcomes *)

Inductive exn : Type :=
  | FileNotFoundError
  | JSONDecodeError (line : string)
  | TypeError
  | KeyError (key : string)
  | ValueError (text : string)
  | Mistyped (key : string).

Inductive outcome (A : Type) : Type :=
  | Return (a : A)
  | Raise (e : exn)
  | OutOfFuel.
Arguments Return {A} a.
Arguments Raise {A} e.
Arguments OutOfFuel {A}.

#[global] Instance outcome_ret : MRet outcome := @Return.
#[global] Instance outcome_bind : MBind outcome := λ A B k o,
  match o with
  | Return a => k a
  | Raise e => Raise e
  | OutOfFuel => OutOfFuel
  end.

(** ** The world: the backing file and what the program did to it *)

Inductive event : Type :=
  | Printed (message : string)
  | Truncated
  | Written (data : string).

Record world : Type := World {
  file : option string;
  trace : list event
}.

Definition M (A : Type) : Type := world → outcome A * world.

Definition ret {A : Type} (a : A) : M A := λ w, (Return a, w).

Definition bind {A B : Type} (m : M A) (k : A → M B) : M B :=
  λ w, match m w with
       | (Return a, w') => k a w'
       | (Raise e, w') => (Raise e, w')
       | (OutOfFuel, w') => (OutOfFuel, w')
       end.

Definition lift {A : Type} (o : outcome A) : M A := λ w, (o, w).

#[global] Instance M_ret : MRet M := @ret.
#[global] Instance M_bind : MBind M := λ A B k m, bind m k.

Definition log (e : event) : M unit :=
  λ w, (Return tt, {| file := file w; trace := trace w ++ [e] |}).

(** [print(message)] *)
Definition print (message : string) : M unit := log (Printed message).

(** [open(data_file, "r")] followed by reading the whole text. *)
Definition open_r : M string :=
  λ w, match file w with
       | Some text => (Return text, w)
       | None => (Raise FileNotFoundError, w)
       end.

(** [open(data_file, "w")]: the file is created or emptied. *)
Definition open_w : M unit :=
  λ w, (Return tt, {| file := Some ""; trace := trace w ++ [Truncated] |}).

(** [open(data_file, "a")]: the file is created when absent, kept otherwise. *)
Definition open_a : M unit :=
  λ w, (Return tt, {| file := Some (default "" (file w)); trace := trace w |}).

(** [file.write(data)] on a file opened for writing or appending. *)
Definition write (data : string) : M unit :=
  λ w, (Return tt, {| file := Some (default "" (file w) +:+ data);
                      trace := trace w ++ [Written data] |}).

(** [try: body except FileNotFoundError: handler] *)
Definition try_except_FileNotFoundError {A : Type} (body handler : M A) : M A :=
  λ w, match body w with
       | (Raise FileNotFoundError, w') => handler w'
       | r => r
       end.

(** ** The [Book] dataclass *)

Module Book.

Record t : Type := Build {
  id : Z;
  title : string;
  author : string;
  year : Z;
  status : string
}.

#[global] Instance t_eq_dec : EqDecision t.
Proof. solve_decision. Defined.

Definition to_dict (self : t) : json :=
  JDict [ ("id", JInt (id self));
          ("title", JStr (title self));
          ("author", JStr (author self));
          ("year", JInt (year self));
          ("status", JStr (status self)) ].

(** [data[key]]: [KeyError] on a dictionary without the key, [TypeError] on
    a value that is no dictionary. *)
Definition subscript (data : json) (key : string) : outcome json :=
  match data with
  | JDict members =>
      match dict_get members key with
      | Some v => Return v
      | None => Raise (KeyError key)
      end
  | _ => Raise TypeError
  end.

Definition as_int (key : string) (v : json) : outcome Z :=
  match v with JInt n => Return n | _ => Raise (Mistyped key) end.

Definition as_str (key : string) (v : json) : outcome string :=
  match v with JStr s => Return s | _ => Raise (Mistyped key) end.

Definition from_dict (data : json) : outcome t :=
  v_id ← subscript data "id";
  v_title ← subscript data "title";
  v_author ← subscript data "author";
  v_year ← subscript data "year";
  v_status ← subscript data "status";
  id ← as_int "id" v_id;
  title ← as_str "title" v_title;
  author ← as_str "author" v_author;
  year ← as_int "year" v_year;
  status ← as_str "status" v_status;
  mret (Build id title author year status).

Definition AVAILABLE : string := "в наличии".
Definition LOANED : string := "выдана".

Definition set_status (self : t) (status : string) : t :=
  Build (id self) (title self) (author self) (year self) status.

(** The method mutates [self]; the model returns the object after the call. *)
Definition change_status (self : t) (status : string) : M t :=
  if bool_decide (status ∉ [AVAILABLE; LOANED]) then
    print "Недопустимый статус. Используйте 'в наличии' или 'выдана'.";;
    mret self
  else
    let self := set_status self status in
    print ("Статус книги '" +:+ title self +:+ "' изменён на '" +:+ status +:+ "'.");;
    mret self.

End Book.

(** ** The [LibraryManager] class *)

Module LibraryManager.

Definition nl : string := String Str.newline "".

(** The loop of [_generate_id]: [fuel] bounds the number of times the
    condition [new_id in used_ids] is evaluated. *)
Fixpoint while_in (fuel : nat) (used_ids : gset Z) (new_id : Z) : outcome Z :=
  match fuel with
  | O => OutOfFuel
  | S fuel' =>
      if decide (new_id ∈ used_ids) then while_in fuel' used_ids (new_id + 1)%Z
      else Return new_id
  end.

Section Manager.

(** [json.loads]; [None] is [JSONDecodeError]. *)
Variable json_loads : string → option json.
(** [json.dumps(_, ensure_ascii=False)] *)
Variable json_dumps : json → string.
(** [str.lower] *)
Variable str_lower : string → string.
(** [str.isdigit] *)
Variable str_isdigit : string → bool.
(** [int] on a string; [None] is [ValueError]. *)
Variable py_int : string → option Z.

(** The condition of the comprehension in [find_books]. [or] and [and]
    evaluate their right operand only when the left one does not decide:
    [isdigit] is asked when neither the title nor the author has the
    keyword, [int] is called when [isdigit] said yes. *)
Definition found (keyword : string) (book : Book.t) : outcome bool :=
  if Str.contains (str_lower (Book.title book)) (str_lower keyword) then Return true
  else if Str.contains (str_lower (Book.author book)) (str_lower keyword) then Return true
  else if str_isdigit keyword then
    match py_int keyword with
    | Some n => Return (n =? Book.year book)%Z
    | None => Raise (ValueError keyword)
    end
  else Return false.

(** The comprehension of [find_books]: the books are tested in order, and
    the first test that raises ends it. *)
Fixpoint found_books (keyword : string) (books : list Book.t) : outcome (list Book.t) :=
  match books with
  | [] => Return []
  | book :: books' =>
      keep ← found keyword book;
      rest ← found_books keyword books';
      mret (if keep : bool then book :: rest else rest)
  end.

(** The body of the loop of [_load_books], [books] being the list built
    so far. *)
Fixpoint for_line (lines : list string) (books : list Book.t) : outcome (list Book.t) :=
  match lines with
  | [] => Return books
  | line :: lines' =>
      match json_loads line with
      | None => Raise (JSONDecodeError line)
      | Some data =>
          book ← Book.from_dict data;
          for_line lines' (books ++ [book])
      end
  end.

Definition _load_books : M (list Book.t) :=
  try_except_FileNotFoundError
    (text ← open_r; lift (for_line (Str.readlines text) []))
    (mret []).

Fixpoint for_book (books : list Book.t) : M unit :=
  match books with
  | [] => mret tt
  | book :: books' =>
      write (json_dumps (Book.to_dict book) +:+ nl);;
      for_book books'
  end.

Definition _save_books (books : list Book.t) : M unit :=
  open_w;; for_book books.

Definition _generate_id : M Z :=
  books ← _load_books;
  let used_ids : gset Z := list_to_set (Book.id <$> books) in
  lift (while_in (S (length books)) used_ids 1).

Definition add_book (title author : string) (year : Z) : M unit :=
  new_id ← _generate_id;
  let new_book := Book.Build new_id title author year Book.AVAILABLE in
  open_a;;
  write (json_dumps (Book.to_dict new_book) +:+ nl);;
  print ("Книга '" +:+ title +:+ "' успешно добавлена").

Definition delete_book (book_id : Z) : M unit :=
  books ← _load_books;
  let updated_books := filter (λ book, Book.id book ≠ book_id) books in
  if length books =? length updated_books then
    print ("Книга с ID " +:+ Str.of_int book_id +:+ " не найдена")
  else
    _save_books updated_books;;
    print ("Книга с ID " +:+ Str.of_int book_id +:+ " успешно удалена").

Definition find_books (keyword : string) : M (list Book.t) :=
  books ← _load_books;
  lift (found_books keyword books).

(** The loop of [change_status]: the first book with the id is changed
    in place and the loop stops; the result is the list after the loop
    and the flag [updated]. *)
Fixpoint for_first (books : list Book.t) (book_id : Z) (status : string)
  : M (list Book.t * bool) :=
  match books with
  | [] => mret ([], false)
  | book :: books' =>
      if (Book.id book =? book_id)%Z then
        book' ← Book.change_status book status;
        mret (book' :: books', true)
      else
        r ← for_first books' book_id status;
        mret (book :: r.1, r.2)
  end.

Definition change_status (book_id : Z) (status : string) : M unit :=
  books ← _load_books;
  r ← for_first books book_id status;
  if negb r.2 then
    print ("Книга с id " +:+ Str.of_int book_id +:+ " не найдена")
  else
    _save_books r.1.

Definition display_line (book : Book.t) : string :=
  "ID: " +:+ Str.of_int (Book.id book) +:+ ", Название: " +:+ Book.title book
  +:+ ", Автор: " +:+ Book.author book +:+ ", Год: " +:+ Str.of_int (Book.year book)
  +:+ ", Статус: " +:+ Book.status book.

Fixpoint for_display (books : list Book.t) : M unit :=
  match books with
  | [] => mret tt
  | book :: books' => print (display_line book);; for_display books'
  end.

Definition display_books : M unit :=
  books ← _load_books;
  match books with
  | [] => print "В библиотеке пока нет книг"
  | _ => for_display books
  end.

End Manager.

End LibraryManager.

(** ** A JSON codec

    [dumps] prints a value the way [json.dumps(_, ensure_ascii=False)] does:
    [", "] between items, [": "] after a key, the two-character escapes for
    the quote, the backslash and the usual control characters, [\u00XX] for
    the other characters below 32, every other byte as it is. [loads] reads
    one object (or one scalar) whose values are integers, strings, [null],
    [true] or [false], with JSON white space where JSON allows it; it refuses
    nested values, numbers with a fraction or an exponent, and [\u] escapes
    outside the ASCII range. *)

Module Codec.

Definition dquote : ascii := "034"%char.
Definition backslash : ascii := "092"%char.

Definition hex_digit (n : N) : ascii :=
  ascii_of_N (if (n <? 10)%N then 48 + n else 87 + n).

Definition hex_value (c : ascii) : option N :=
  let n := N_of_ascii c in
  if ((48 <=? n) && (n <=? 57))%N then Some (n - 48)%N
  else if ((97 <=? n) && (n <=? 102))%N then Some (n - 87)%N
  else if ((65 <=? n) && (n <=? 70))%N then Some (n - 55)%N
  else None.

(** One character of a string, escaped, in front of [k]. *)
Definition escape_char (c : ascii) (k : string) : string :=
  let n := N_of_ascii c in
  if Ascii.eqb c dquote then String backslash (String dquote k)
  else if Ascii.eqb c backslash then String backslash (String backslash k)
  else if (n =? 8)%N then String backslash (String "b" k)
  else if (n =? 9)%N then String backslash (String "t" k)
  else if (n =? 10)%N then String backslash (String "n" k)
  else if (n =? 12)%N then String backslash (String "f" k)
  else if (n =? 13)%N then String backslash (String "r" k)
  else if (n <? 32)%N then
    String backslash (String "u" (String "0" (String "0"
      (String (hex_digit (n / 16)) (String (hex_digit (n mod 16)) k)))))
  else String c k.

Fixpoint escape (s : string) (k : string) : string :=
  match s with
  | "" => k
  | String c s' => escape_char c (escape s' k)
  end.

Definition quote (s : string) (k : string) : string :=
  String dquote (escape s (String dquote k)).

(** [emit v k]: the text of [v] in front of [k]. *)
Fixpoint emit (v : json) (k : string) : string :=
  match v with
  | JNull => "null" +:+ k
  | JBool true => "true" +:+ k
  | JBool false => "false" +:+ k
  | JInt n => Str.of_int n +:+ k
  | JStr s => quote s k
  | JList [] => "[]" +:+ k
  | JList (x :: items) =>
      String "[" (emit x
        (foldr (λ y k', String "," (String " " (emit y k'))) (String "]" k) items))
  | JDict [] => "{}" +:+ k
  | JDict (m :: members) =>
      String "{" (quote m.1 (String ":" (String " " (emit m.2
        (foldr (λ m' k', String "," (String " "
                  (quote m'.1 (String ":" (String " " (emit m'.2 k'))))))
               (String "}" k) members)))))
  end.

Definition dumps (v : json) : string := emit v "".

Definition is_ws (c : ascii) : bool :=
  let n := N_of_ascii c in
  ((n =? 32) || (n =? 9) || (n =? 10) || (n =? 13))%N.

Fixpoint skip_ws (s : string) : string :=
  match s with
  | "" => ""
  | String c rest => if is_ws c then skip_ws rest else s
  end.

(** What a backslash followed by [e] stands for. *)
Definition unescape_char (e : ascii) : option ascii :=
  if Ascii.eqb e dquote then Some dquote
  else if Ascii.eqb e backslash then Some backslash
  else if Ascii.eqb e "/" then Some "/"%char
  else if Ascii.eqb e "b" then Some "008"%char
  else if Ascii.eqb e "t" then Some "009"%char
  else if Ascii.eqb e "n" then Some "010"%char
  else if Ascii.eqb e "f" then Some "012"%char
  else if Ascii.eqb e "r" then Some "013"%char
  else None.

Definition hex4 (h1 h2 h3 h4 : ascii) : option ascii :=
  a ← hex_value h1; b ← hex_value h2; c ← hex_value h3; d ← hex_value h4;
  let n := (((a * 16 + b) * 16 + c) * 16 + d)%N in
  if (n <? 128)%N then Some (ascii_of_N n) else None.

(** The string that ends at the first unescaped quote of [s], decoded, and
    the text after that quote. *)
Fixpoint unquote (s : string) : option (string * string) :=
  match s with
  | "" => None
  | String c rest =>
      if Ascii.eqb c dquote then Some ("", rest)
      else if Ascii.eqb c backslash then
        match rest with
        | String "u" (String h1 (String h2 (String h3 (String h4 rest')))) =>
            c' ← hex4 h1 h2 h3 h4;
            r ← unquote rest';
            Some (String c' r.1, r.2)
        | String e rest' =>
            c' ← unescape_char e;
            r ← unquote rest';
            Some (String c' r.1, r.2)
        | "" => None
        end
      else if (N_of_ascii c <? 32)%N then None
      else r ← unquote rest; Some (String c r.1, r.2)
  end.

Definition is_number_char (c : ascii) : bool :=
  Ascii.eqb c "-" || Str.is_digit_char c.

(** The longest prefix of [s] made of digits and minus signs, and the rest. *)
Fixpoint span_number (s : string) : string * string :=
  match s with
  | "" => ("", "")
  | String c rest =>
      if is_number_char c then
        let r := span_number rest in (String c r.1, r.2)
      else ("", s)
  end.

(** An integer literal, as [str] prints it. *)
Definition integer (text : string) : option Z :=
  d ← NilZero.int_of_string text;
  let n := Z.of_int d in
  if String.eqb (Str.of_int n) text then Some n else None.

Definition keyword (word : string) (v : json) (s : string) : option (json * string) :=
  if Str.startswith s word then Some (v, String.substring (String.length word) (String.length s - String.length word) s)
  else None.

Definition scalar (s : string) : option (json * string) :=
  match s with
  | "" => None
  | String c rest =>
      if Ascii.eqb c dquote then r ← unquote rest; Some (JStr r.1, r.2)
      else if Ascii.eqb c "n" then keyword "null" JNull s
      else if Ascii.eqb c "t" then keyword "true" (JBool true) s
      else if Ascii.eqb c "f" then keyword "false" (JBool false) s
      else let r := span_number s in n ← integer r.1; Some (JInt n, r.2)
  end.

(** [d[key] = v] on a Python dict: a key that is there keeps its place. *)
Fixpoint dict_set (members : list (string * json)) (key : string) (v : json)
  : list (string * json) :=
  match members with
  | [] => [(key, v)]
  | (k, v') :: rest =>
      if String.eqb k key then (k, v) :: rest else (k, v') :: dict_set rest key v
  end.

(** The members of an object, from the first key to the closing brace. *)
Fixpoint members (fuel : nat) (s : string) (acc : list (string * json))
  : option (list (string * json) * string) :=
  match fuel with
  | O => None
  | S fuel' =>
      match skip_ws s with
      | String c rest =>
          if Ascii.eqb c dquote then
            key ← unquote rest;
            match skip_ws key.2 with
            | String ":" rest' =>
                v ← scalar (skip_ws rest');
                let acc' := dict_set acc key.1 v.1 in
                match skip_ws v.2 with
                | String "," rest'' => members fuel' rest'' acc'
                | String "}" rest'' => Some (acc', rest'')
                | _ => None
                end
            | _ => None
            end
          else None
      | "" => None
      end
  end.

Definition value (s : string) : option (json * string) :=
  match s with
  | String "{" rest =>
      match skip_ws rest with
      | String "}" rest' => Some (JDict [], rest')
      | _ => r ← members (String.length s) rest []; Some (JDict r.1, r.2)
      end
  | _ => scalar s
  end.

Definition loads (line : string) : option json :=
  r ← value (skip_ws line);
  match skip_ws r.2 with
  | "" => Some r.1
  | _ => None
  end.

(** A text a number cannot run into: it is empty or starts with a character
    that is neither a digit nor a minus sign. *)
Definition stops (k : string) : Prop :=
  match k with
  | "" => True
  | String c _ => is_number_char c = false
  end.

(** The values of a book's dictionary. *)
Definition simple (v : json) : Prop :=
  match v with
  | JInt _ | JStr _ => True
  | _ => False
  end.

End Codec.

(** ** The words of the specification *)

Module Spec.

(** The relation between a sequence and the sequence of exactly its elements
    that satisfy [P], in the order they have. *)
Inductive selects {A : Type} (P : A → Prop) : list A → list A → Prop :=
  | selects_nil : selects P [] []
  | selects_keep x l l' : P x → selects P l l' → selects P (x :: l) (x :: l')
  | selects_drop x l l' : ¬ P x → selects P l l' → selects P (x :: l) l'.

(** [text] has [part] in it. *)
Definition contains (text part : string) : Prop :=
  ∃ before after, text = before +:+ part +:+ after.

(** A string of the characters [0] to [9]. *)
Fixpoint numeral (s : string) : Prop :=
  match s with
  | "" => True
  | String c s' => Str.is_digit_char c = true ∧ numeral s'
  end.

Section Text.

Variable str_lower : string → string.
Variable str_isdigit : string → bool.
Variable py_int : string → option Z.

(** [text] contains [keyword] as a substring, the case of letters ignored:
    the lowered keyword is a part of the lowered text. *)
Definition contains_ignoring_case (text keyword : string) : Prop :=
  contains (str_lower text) (str_lower keyword).

(** What [find(keyword)] looks for: the keyword in the title or in the
    author, or the number the keyword denotes, when it is numeric, as the
    year. *)
Definition find_match (keyword : string) (book : Book.t) : Prop :=
  contains_ignoring_case (Book.title book) keyword
  ∨ contains_ignoring_case (Book.author book) keyword
  ∨ (str_isdigit keyword = true ∧ py_int keyword = Some (Book.year book)).

(** [int] accepts the keyword when [isdigit] does. *)
Definition readable (keyword : string) : Prop :=
  str_isdigit keyword = true → is_Some (py_int keyword).

(** Digits have no case: a string that [isdigit] accepts is the only one
    that is lowered to it. *)
Definition digits_uncased : Prop :=
  ∀ k k' : string, str_isdigit k = true → str_lower k' = str_lower k → k' = k.

(** Lowering makes no digit and moves none away from its neighbours: a
    numeral is in the lowered text exactly when it is in the text. *)
Definition digits_kept : Prop :=
  ∀ text n : string,
    numeral n → contains (str_lower text) (str_lower n) ↔ contains text n.

End Text.

(** [r] is the smallest positive integer that is not in [ids]. *)
Definition smallest_unused (ids : list Z) (r : Z) : Prop :=
  (1 ≤ r)%Z ∧ (r ∉ ids) ∧ (∀ k : Z, (1 ≤ k < r)%Z → k ∈ ids).

End Spec.

(** ** Stores *)

Module Store.

(** The line [_save_books] and [add_book] write for a book. *)
Definition line_of (json_dumps : json → string) (book : Book.t) : string :=
  json_dumps (Book.to_dict book) +:+ LibraryManager.nl.

(** The text of a file that holds [books], one line each. *)
Fixpoint text_of (json_dumps : json → string) (books : list Book.t) : string :=
  match books with
  | [] => ""
  | book :: books' => line_of json_dumps book +:+ text_of json_dumps books'
  end.

(** The backing file is absent, or every line of it ends with a newline. *)
Definition terminated (w : world) : Prop :=
  match file w with
  | None => True
  | Some text => Str.terminated text = true
  end.

(** The world [w] holds the records [books]: the file is well formed and
    loading it returns them. *)
Definition holds (json_loads : string → option json) (w : world) (books : list Book.t) : Prop :=
  terminated w ∧ LibraryManager._load_books json_loads w = (Return books, w).

Definition ids (books : list Book.t) : list Z := Book.id <$> books.

(** The backing file loads, as records no two of which share an id. *)
Definition distinct_ids (json_loads : string → option json) (w : world) : Prop :=
  ∃ books,
    LibraryManager._load_books json_loads w = (Return books, w) ∧ NoDup (ids books).

(** A book after [Book.change_status]: a status outside the two values
    leaves it as it is. *)
Definition with_status (book : Book.t) (status : string) : Book.t :=
  if bool_decide (status ∈ [Book.AVAILABLE; Book.LOANED])
  then Book.Build (Book.id book) (Book.title book) (Book.author book)
         (Book.year book) status
  else book.

(** What [Book.change_status] prints. *)
Definition status_report (book : Book.t) (status : string) : string :=
  if bool_decide (status ∈ [Book.AVAILABLE; Book.LOANED])
  then "Статус книги '" +:+ Book.title book +:+ "' изменён на '" +:+ status +:+ "'."
  else "Недопустимый статус. Используйте 'в наличии' или 'выдана'.".

(** The first book of [books] with id [book_id]. *)
Fixpoint first_with (books : list Book.t) (book_id : Z) : option Book.t :=
  match books with
  | [] => None
  | book :: books' =>
      if (Book.id book =? book_id)%Z then Some book else first_with books' book_id
  end.

(** [books] after the status of the first book with id [book_id] was
    changed. *)
Fixpoint update_first (books : list Book.t) (book_id : Z) (status : string) : list Book.t :=
  match books with
  | [] => []
  | book :: books' =>
      if (Book.id book =? book_id)%Z then with_status book status :: books'
      else book :: update_first books' book_id status
  end.

(** The world [w] after [events]. *)
Definition after (w : world) (events : list event) : world :=
  {| file := file w; trace := trace w ++ events |}.

(** The world [w] after the file was rewritten to hold [books], [events]
    being what the operation did. *)
Definition rewritten (json_dumps : json → string) (w : world)
    (books : list Book.t) (events : list event) : world :=
  {| file := Some (text_of json_dumps books); trace := trace w ++ events |}.

(** What [_save_books] does to the file. *)
Definition writes (json_dumps : json → string) (books : list Book.t) : list event :=
  Truncated :: (Written ∘ line_of json_dumps <$> books).

Definition not_found_ID (book_id : Z) : string :=
  "Книга с ID " +:+ Str.of_int book_id +:+ " не найдена".
Definition deleted_ID (book_id : Z) : string :=
  "Книга с ID " +:+ Str.of_int book_id +:+ " успешно удалена".
Definition not_found_id (book_id : Z) : string :=
  "Книга с id " +:+ Str.of_int book_id +:+ " не найдена".
Definition added (title : string) : string :=
  "Книга '" +:+ title +:+ "' успешно добавлена".

(** The two laws of the [json] module the program relies on. *)
Record codec_laws (json_loads : string → option json) (json_dumps : json → string) : Prop := {
  loads_dumps : ∀ book,
    json_loads (line_of json_dumps book) = Some (Book.to_dict book);
  dumps_one_line : ∀ book,
    Str.has_newline (json_dumps (Book.to_dict book)) = false
}.

End Store.

(** ** Sessions

    The calls that write, which the menu loop of [main] makes to the manager
    one after the other. *)

Module Session.

Inductive call : Type :=
  | Add (title author : string) (year : Z)
  | Delete (book_id : Z)
  | ChangeStatus (book_id : Z) (status : string).

Section Manager.

Variable json_loads : string → option json.
Variable json_dumps : json → string.

Definition run (c : call) : M unit :=
  match c with
  | Add title author year => LibraryManager.add_book json_loads json_dumps title author year
  | Delete book_id => LibraryManager.delete_book json_loads json_dumps book_id
  | ChangeStatus book_id status =>
      LibraryManager.change_status json_loads json_dumps book_id status
  end.

Fixpoint run_all (calls : list call) : M unit :=
  match calls with
  | [] => mret tt
  | c :: calls' => run c;; run_all calls'
  end.

End Manager.

End Session.

(** ** Some books and worlds *)

Module Shelf.

Definition dune : Book.t := Book.Build 1 "Dune" "Herbert" 1965 Book.AVAILABLE.
Definition fahrenheit : Book.t :=
  Book.Build 2 "Fahrenheit 451" "Bradbury" 1953 Book.AVAILABLE.
Definition solaris : Book.t := Book.Build 3 "Solaris" "Lem" 1961 Book.LOANED.
Definition album : Book.t := Book.Build 1 "1999" "Prince" 1982 Book.AVAILABLE.

(** No backing file yet. *)
Definition no_file : world := {| file := None; trace := [] |}.

(** The backing file as the program writes it for [books]. *)
Definition holding (books : list Book.t) : world :=
  {| file := Some (Store.text_of Codec.dumps books); trace := [] |}.

(** A backing file with one record, its line not closed by a newline. *)
Definition unterminated : world :=
  {| file := Some (Codec.dumps (Book.to_dict dune)); trace := [] |}.

(** A backing file whose second line is cut short. *)
Definition damaged : world :=
  {| file := Some (Store.line_of Codec.dumps dune +:+ "{" +:+ LibraryManager.nl
                   +:+ Store.line_of Codec.dumps fahrenheit);
     trace := [] |}.

End Shelf.

(** ** More vocabulary for the behaviour of the operations *)

Module Fields.

(** The keys [Book.from_dict] reads, in the order it reads them. *)
Definition keys : list string := ["id"; "title"; "author"; "year"; "status"].

End Fields.

Module Entries.

(** The records that consecutive calls of [add_book] make of [entries]
    (title, author, year) when they are given the ids [first], [first + 1],
    and so on. *)
Fixpoint numbered (first : Z) (entries : list (string * string * Z)) : list Book.t :=
  match entries with
  | [] => []
  | (title, author, year) :: entries' =>
      Book.Build first title author year Book.AVAILABLE
      :: numbered (first + 1) entries'
  end.

(** One call of [add_book] for each entry. *)
Definition adds (entries : list (string * string * Z)) : list Session.call :=
  (λ entry, Session.Add entry.1.1 entry.1.2 entry.2) <$> entries.

End Entries.

(** ** The menu loop

    [main] reads its input line by line. The console is the backing file,
    the lines still to be read and the log of what was done, in order: what
    the manager and [main] printed and wrote, and each call of [input] with
    its prompt and the line it returned, if there was one. *)

Module Console.

Inductive action : Type :=
  | Did (e : event)
  | Asked (prompt : string) (answer : option string).

Record t : Type := Build {
  disk : option string;
  stdin : list string;
  log : list action
}.

Inductive crash : Type :=
  | EOFError
  | ValueError (text : string)
  | Failed (e : exn).

Inductive result (A : Type) : Type :=
  | Done (a : A)
  | Crashed (c : crash)
  | Running.
Arguments Done {A} a.
Arguments Crashed {A} c.
Arguments Running {A}.

Definition C (A : Type) : Type := t → result A * t.

#[global] Instance C_ret : MRet C := λ A a c, (Done a, c).
#[global] Instance C_bind : MBind C := λ A B k m c,
  match m c with
  | (Done a, c') => k a c'
  | (Crashed e, c') => (Crashed e, c')
  | (Running, c') => (Running, c')
  end.

(** The world the manager sees. *)
Definition world_of (c : t) : world := {| file := disk c; trace := [] |}.

(** A call of the manager, or a [print], from [main]: what it does is
    added to the log; an exception is not caught. *)
Definition call {A : Type} (m : M A) : C A := λ c,
  let r := m (world_of c) in
  let c' := {| disk := file r.2; stdin := stdin c; log := log c ++ (Did <$> trace r.2) |} in
  match r.1 with
  | Return a => (Done a, c')
  | Raise e => (Crashed (Failed e), c')
  | OutOfFuel => (Running, c')
  end.

(** [input(prompt)]: the next line, or [EOFError] when there is none. *)
Definition input (prompt : string) : C string := λ c,
  match stdin c with
  | [] => (Crashed EOFError,
           {| disk := disk c; stdin := []; log := log c ++ [Asked prompt None] |})
  | line :: rest =>
      (Done line,
       {| disk := disk c; stdin := rest; log := log c ++ [Asked prompt (Some line)] |})
  end.

Section Main.

Variable json_loads : string → option json.
Variable json_dumps : json → string.
Variable str_lower : string → string.
Variable str_isdigit : string → bool.
Variable py_int : string → option Z.

(** [int] on a string read from the input. *)
Definition int (text : string) : C Z := λ c,
  match py_int text with
  | Some n => (Done n, c)
  | None => (Crashed (ValueError text), c)
  end.

Definition menu : C unit :=
  call (print (String Str.newline "Меню:"));;
  call (print "1. Добавить книгу");;
  call (print "2. Удалить книгу");;
  call (print "3. Найти книгу");;
  call (print "4. Показать все книги");;
  call (print "5. Изменить статус книги");;
  call (print "6. Выйти").

Fixpoint for_found (found_books : list Book.t) : C unit :=
  match found_books with
  | [] => mret tt
  | book :: found_books' =>
      call (print (LibraryManager.display_line book));; for_found found_books'
  end.

(** The branches of the loop on [choice]; the result says whether the loop
    is left. *)
Definition branch (choice : string) : C bool :=
  if String.eqb choice "1" then
    title ← input "Введите название книги: ";
    author ← input "Введите автора книги: ";
    text ← input "Введите год издания книги: ";
    year ← int text;
    call (LibraryManager.add_book json_loads json_dumps title author year);;
    mret false
  else if String.eqb choice "2" then
    text ← input "Введите ID книги для удаления: ";
    book_id ← int text;
    call (LibraryManager.delete_book json_loads json_dumps book_id);;
    mret false
  else if String.eqb choice "3" then
    keyword ← input "Введите ключевое слово для поиска: ";
    found_books ← call (LibraryManager.find_books json_loads str_lower str_isdigit
                          py_int keyword);
    match found_books with
    | [] => call (print "Книги не найдены.")
    | _ => for_found found_books
    end;;
    mret false
  else if String.eqb choice "4" then
    call (LibraryManager.display_books json_loads);;
    mret false
  else if String.eqb choice "5" then
    text ← input "Введите ID книги для изменения статуса: ";
    book_id ← int text;
    status ← input "Введите новый статус ('в наличии' или 'выдана'): ";
    call (LibraryManager.change_status json_loads json_dumps book_id status);;
    mret false
  else if String.eqb choice "6" then
    call (print "Выход из приложения. До свидания!");;
    mret true
  else
    call (print "Некорректный выбор. Попробуйте снова.");;
    mret false.

(** One turn of the loop, up to the test of whether to leave it. *)
Definition turn : C bool :=
  menu;;
  choice ← input "Выберите действие: ";
  branch choice.

(** The loop [while True] of [main]; [fuel] bounds the number of times the
    menu is shown. *)
Fixpoint loop (fuel : nat) : C unit :=
  match fuel with
  | O => λ c, (Running, c)
  | S fuel' =>
      menu;;
      choice ← input "Выберите действие: ";
      stop ← branch choice;
      if stop : bool then mret tt else loop fuel'
  end.

(** [main], the menu being shown at most once more than there are lines to
    read. *)
Definition main : C unit := λ c, loop (S (length (stdin c))) c.

End Main.

(** The backing file loads as records no two of which share an id, and it is
    absent or its last line is closed by a newline. *)
Definition good_world (json_loads : string → option json) (w : world) : Prop :=
  Store.distinct_ids json_loads w ∧ Store.terminated w.

Definition good (json_loads : string → option json) (c : t) : Prop :=
  good_world json_loads (world_of c).

(** A step of [main] that reads input forward only, that does not run
    for ever, and that keeps the property [inv] of the backing file. *)
Definition tame (inv : world → Prop) {A : Type} (m : C A) : Prop :=
  ∀ c : t,
    length (stdin (m c).2) ≤ length (stdin c)
    ∧ (m c).1 ≠ Running
    ∧ (inv (world_of c) → inv (world_of (m c).2)).

(** The same for an operation of the manager. *)
Definition tame_world (inv : world → Prop) {A : Type} (m : M A) : Prop :=
  ∀ w : world, (m w).1 ≠ OutOfFuel ∧ (inv w → inv (m w).2).

(** What showing the menu adds to the log. *)
Definition menu_log : list action :=
  Did ∘ Printed <$>
    [String Str.newline "Меню:"; "1. Добавить книгу"; "2. Удалить книгу";
     "3. Найти книгу"; "4. Показать все книги"; "5. Изменить статус книги";
     "6. Выйти"].

(** The console after the menu was shown and [choice] read. *)
Definition chosen (c : t) (choice : string) (rest : list string) : t :=
  {| disk := disk c; stdin := rest;
     log := log c ++ menu_log ++ [Asked "Выберите действие: " (Some choice)] |}.

End Console.

(** ** A reading of the text methods

    [lower], [isdigit] and [int] for the examples. They are Python's on the
    strings the examples give them: [lower] on ASCII text and on digits,
    [isdigit] on ASCII text and on the superscript digits, [int] on strings
    of ASCII digits, which it reads, and on words of letters and on the
    superscript digits, which it refuses. *)

Module Sample.

Definition lower_char (c : ascii) : ascii :=
  let n := N_of_ascii c in
  if ((65 <=? n) && (n <=? 90))%N then ascii_of_N (n + 32) else c.

(** The letters [A] to [Z] are lowered, every other byte is kept. *)
Fixpoint lower (s : string) : string :=
  match s with
  | "" => ""
  | String c s' => String (lower_char c) (lower s')
  end.

Definition letter (c : ascii) : bool :=
  let n := N_of_ascii c in
  (((65 <=? n) && (n <=? 90)) || ((97 <=? n) && (n <=? 122)))%N.

Fixpoint no_letter (s : string) : bool :=
  match s with
  | "" => true
  | String c s' => negb (letter c) && no_letter s'
  end.

(** The second byte of a superscript one, two or three in UTF-8, the first
    being [194]. *)
Definition is_superscript (c : ascii) : bool :=
  let n := N_of_ascii c in ((n =? 178) || (n =? 179) || (n =? 185))%N.

(** [pending] says that the byte before was the first of two. *)
Fixpoint digits (pending : bool) (s : string) : bool :=
  match s with
  | "" => negb pending
  | String c rest =>
      if pending then is_superscript c && digits false rest
      else if Str.is_digit_char c then digits false rest
      else (N_of_ascii c =? 194)%N && digits true rest
  end.

(** At least one character, each of them an ASCII digit or a superscript
    digit. *)
Definition isdigit (s : string) : bool :=
  match s with
  | "" => false
  | _ => digits false s
  end.

Fixpoint all_digits (s : string) : bool :=
  match s with
  | "" => true
  | String c s' => Str.is_digit_char c && all_digits s'
  end.

Fixpoint int_from (acc : Z) (s : string) : Z :=
  match s with
  | "" => acc
  | String c s' => int_from (10 * acc + (Z.of_N (N_of_ascii c) - 48)) s'
  end.

(** The number a string of at most 4300 ASCII digits denotes; [ValueError]
    on any other string, the superscript digits among them. *)
Definition int (s : string) : option Z :=
  match s with
  | "" => None
  | _ =>
      if all_digits s && (String.length s <=? 4300)%nat
      then Some (int_from 0 s) else None
  end.

End Sample.

(** * Facts *)

(** ** Strings *)

Module StrFacts.

#[local] Arguments String.append !_ _ / : simpl nomatch.

Lemma app_nil_r (s : string) : s +:+ "" = s.
Proof. induction s; simpl; congruence. Qed.

Lemma app_assoc (a b c : string) : (a +:+ b) +:+ c = a +:+ b +:+ c.
Proof. induction a; simpl; congruence. Qed.

Lemma startswith_app (needle post : string) :
  Str.startswith (needle +:+ post) needle = true.
Proof.
  induction needle as [|c needle IH]; simpl; [done|].
  by rewrite Ascii.eqb_refl.
Qed.

Lemma startswith_inv (hay needle : string) :
  Str.startswith hay needle = true → ∃ post, hay = needle +:+ post.
Proof.
  revert hay. induction needle as [|c needle IH]; intros hay; simpl.
  - intros _. by exists hay.
  - destruct hay as [|b hay]; [done|].
    destruct (Ascii.eqb_spec c b) as [->|]; [|done].
    intros [post ->]%IH. by exists post.
Qed.

Lemma contains_startswith (hay needle : string) :
  Str.startswith hay needle = true → Str.contains hay needle = true.
Proof. intros H. destruct hay; simpl; by rewrite H. Qed.

Lemma contains_app (before needle after : string) :
  Str.contains (before +:+ needle +:+ after) needle = true.
Proof.
  induction before as [|c before IH]; simpl.
  - apply contains_startswith, startswith_app.
  - rewrite IH. apply orb_true_r.
Qed.

Lemma contains_inv (hay needle : string) :
  Str.contains hay needle = true →
  ∃ before after, hay = before +:+ needle +:+ after.
Proof.
  induction hay as [|c hay IH]; simpl.
  - rewrite orb_false_r. intros [post ->]%startswith_inv. by exists "", post.
  - intros [H|H]%orb_true_iff.
    + apply startswith_inv in H as [post ->]. by exists "", post.
    + apply IH in H as (before & after & ->). by exists (String c before), after.
Qed.

(** [in] finds the needle exactly when the text is the needle between two
    texts. *)
Lemma contains_iff (hay needle : string) :
  Str.contains hay needle = true ↔ ∃ before after, hay = before +:+ needle +:+ after.
Proof.
  split; [apply contains_inv|]. intros (before & after & ->). apply contains_app.
Qed.

Lemma contains_empty (hay : string) : Str.contains hay "" = true.
Proof. by destruct hay. Qed.

Lemma contains_self (s : string) : Str.contains s s = true.
Proof.
  pose proof (contains_app "" s "") as H.
  simpl in H. by rewrite app_nil_r in H.
Qed.

End StrFacts.

(** The lines of a text. *)

Module LineFacts.

#[local] Arguments String.append !_ _ / : simpl nomatch.

Lemma readlines_nonempty (text : string) :
  text ≠ "" → Str.readlines text ≠ [].
Proof.
  destruct text as [|c rest]; [done|]. intros _. simpl.
  destruct (Ascii.eqb c Str.newline); [done|].
  by destruct (Str.readlines rest).
Qed.

(** A line without a newline, closed by one, is the first line read. *)
Lemma readlines_line (line rest : string) :
  Str.has_newline line = false →
  Str.readlines (line +:+ LibraryManager.nl +:+ rest)
  = (line +:+ LibraryManager.nl) :: Str.readlines rest.
Proof.
  unfold LibraryManager.nl.
  induction line as [|c line IH]; simpl; [done|].
  intros [Hc Hline]%orb_false_iff. simpl in IH. rewrite Hc, IH by done. done.
Qed.

(** Appending to a text whose last line is closed adds lines and touches
    none. *)
Lemma readlines_app (text more : string) :
  Str.terminated text = true →
  Str.readlines (text +:+ more) = Str.readlines text ++ Str.readlines more.
Proof.
  induction text as [|c text IH]; [done|].
  intros Hterm. simpl.
  destruct (Ascii.eqb c Str.newline) eqn:Hc.
  - rewrite IH; [done|]. by destruct text.
  - destruct text as [|d text]; [simpl in Hterm; congruence|].
    rewrite IH by done.
    pose proof (readlines_nonempty (String d text)) as Hne.
    destruct (Str.readlines (String d text)); [by destruct Hne|done].
Qed.

Lemma terminated_app (text more : string) :
  Str.terminated text = true → Str.terminated more = true →
  Str.terminated (text +:+ more) = true.
Proof.
  induction text as [|c text IH]; [done|].
  intros Hterm Hmore. destruct text as [|d text].
  - simpl. destruct more; [done|]. done.
  - change (Str.terminated (String d text +:+ more) = true). by apply IH.
Qed.

Lemma terminated_line (line : string) :
  Str.terminated (line +:+ LibraryManager.nl) = true.
Proof.
  induction line as [|c line IH]; [done|].
  simpl. destruct (line +:+ LibraryManager.nl) eqn:E; [|done].
  by destruct line.
Qed.

End LineFacts.

(** ** The codec obeys the two laws *)

Module CodecFacts.

Import Codec.

#[local] Arguments String.append !_ _ / : simpl nomatch.

Lemma unquote_escape (s k : string) :
  unquote (escape s (String dquote k)) = Some (s, k).
Proof.
  induction s as [|c s IH]; [done|].
  destruct c as [[] [] [] [] [] [] [] []]; simpl; by rewrite IH.
Qed.

Lemma has_newline_escape (s k : string) :
  Str.has_newline (escape s k) = Str.has_newline k.
Proof.
  induction s as [|c s IH]; [done|].
  destruct c as [[] [] [] [] [] [] [] []]; simpl; by rewrite IH.
Qed.

Lemma escape_app (s k k' : string) :
  escape s k +:+ k' = escape s (k +:+ k').
Proof.
  induction s as [|c s IH]; [done|].
  destruct c as [[] [] [] [] [] [] [] []]; simpl; by rewrite IH.
Qed.

Lemma span_number_stops (k : string) : stops k → span_number k = ("", k).
Proof. destruct k as [|c k]; [done|]. simpl. by intros ->. Qed.

Lemma span_number_uint (d : Decimal.uint) (k : string) :
  stops k →
  span_number (NilEmpty.string_of_uint d +:+ k) = (NilEmpty.string_of_uint d, k).
Proof.
  intros Hk. induction d; simpl; rewrite ?IHd; try done.
  by apply span_number_stops.
Qed.

Lemma has_newline_uint (d : Decimal.uint) (k : string) :
  Str.has_newline (NilEmpty.string_of_uint d +:+ k) = Str.has_newline k.
Proof. induction d; simpl; by rewrite ?IHd. Qed.

Lemma of_int_cases (n : Z) :
  ∃ d, d ≠ Decimal.Nil ∧
    (Str.of_int n = NilEmpty.string_of_uint d
     ∨ Str.of_int n = String "-" (NilEmpty.string_of_uint d)).
Proof.
  unfold Str.of_int. destruct n as [|p|p]; simpl.
  - exists (Decimal.D0 Decimal.Nil). by split; [|left].
  - exists (Pos.to_uint p). split; [apply DecimalPos.Unsigned.to_uint_nonnil|].
    left. unfold NilZero.string_of_uint.
    pose proof (DecimalPos.Unsigned.to_uint_nonnil p).
    by destruct (Pos.to_uint p).
  - exists (Pos.to_uint p). split; [apply DecimalPos.Unsigned.to_uint_nonnil|].
    right. unfold NilZero.string_of_uint.
    pose proof (DecimalPos.Unsigned.to_uint_nonnil p).
    by destruct (Pos.to_uint p).
Qed.

Lemma span_number_of_int (n : Z) (k : string) :
  stops k → span_number (Str.of_int n +:+ k) = (Str.of_int n, k).
Proof.
  intros Hk. destruct (of_int_cases n) as (d & _ & [-> | ->]); simpl;
    by rewrite span_number_uint.
Qed.

Lemma has_newline_of_int (n : Z) (k : string) :
  Str.has_newline (Str.of_int n +:+ k) = Str.has_newline k.
Proof.
  destruct (of_int_cases n) as (d & _ & [-> | ->]); simpl;
    by rewrite has_newline_uint.
Qed.

Lemma integer_of_int (n : Z) : integer (Str.of_int n) = Some n.
Proof.
  unfold integer, Str.of_int. rewrite NilZero.isi.
  - simpl. rewrite DecimalZ.of_to. by rewrite String.eqb_refl.
  - destruct n; simpl; [done| |done]. intros [= H].
    by apply DecimalPos.Unsigned.to_uint_nonnil in H.
  - destruct n; simpl; [done|done|]. intros [= H].
    by apply DecimalPos.Unsigned.to_uint_nonnil in H.
Qed.

(** The first character of a printed integer is a digit or a minus sign. *)
Lemma of_int_head (n : Z) :
  ∃ c s, Str.of_int n = String c s ∧ is_number_char c = true.
Proof.
  destruct (of_int_cases n) as (d & Hd & [-> | ->]).
  - destruct d; try done; simpl; eauto.
  - simpl; eauto.
Qed.

Lemma scalar_int (n : Z) (k : string) :
  stops k → scalar (Str.of_int n +:+ k) = Some (JInt n, k).
Proof.
  intros Hk. destruct (of_int_head n) as (c & s & E & Hc).
  pose proof (span_number_of_int n k Hk) as Hs.
  pose proof (integer_of_int n) as Hi.
  rewrite E in Hs, Hi |- *. simpl String.append in Hs |- *.
  unfold scalar.
  destruct c as [[] [] [] [] [] [] [] []]; try discriminate Hc;
    cbn -[span_number integer]; rewrite Hs; cbn -[integer];
    by rewrite Hi.
Qed.

Lemma scalar_emit (v : json) (k : string) :
  simple v → stops k → scalar (emit v k) = Some (v, k).
Proof.
  destruct v; try done; intros _ Hk.
  - by apply scalar_int.
  - simpl. by rewrite unquote_escape.
Qed.

Lemma skip_ws_emit (v : json) (k : string) :
  simple v → skip_ws (emit v k) = emit v k.
Proof.
  destruct v as [| |n|s| |]; try done; intros _.
  simpl. destruct (of_int_head n) as (c & s & -> & Hc).
  by destruct c as [[] [] [] [] [] [] [] []].
Qed.

Lemma members_mono (fuel fuel' : nat) s acc r :
  members fuel s acc = Some r → fuel ≤ fuel' → members fuel' s acc = Some r.
Proof.
  revert fuel' s acc. induction fuel as [|fuel IH]; intros fuel' s acc H Hle; [done|].
  destruct fuel' as [|fuel']; [lia|]. simpl in *.
  destruct (skip_ws s) as [|c rest]; [done|].
  destruct (Ascii.eqb c dquote); [|done].
  destruct (unquote rest) as [key|]; [|done]. simpl in *.
  repeat (case_match; try done).
  all: destruct (scalar _) as [v|]; [|done]; simpl in *.
  all: repeat (case_match; try done).
  all: apply IH; [done|lia].
Qed.

(** Evaluate the tests the decoder makes on characters that are known. *)
Ltac tests :=
  repeat match goal with
         | |- context [is_ws ?c] =>
             let b := eval vm_compute in (is_ws c) in
             change (is_ws c) with b; cbn -[emit]
         | |- context [Ascii.eqb ?c ?d] =>
             let b := eval vm_compute in (Ascii.eqb c d) in
             change (Ascii.eqb c d) with b; cbn -[emit]
         end.

(** One member followed by a comma: the decoder records it and goes on. *)
Lemma members_comma (fuel : nat) (key : string) (v : json) (k : string) acc :
  simple v →
  members (S fuel) (quote key (String ":" (String " " (emit v (String "," k))))) acc
  = members fuel k (dict_set acc key v).
Proof.
  intros Hv. unfold quote. cbn -[emit]. tests.
  rewrite unquote_escape. cbn -[emit]. tests.
  rewrite skip_ws_emit, scalar_emit by done. cbn -[emit]. by tests.
Qed.

(** The last member, followed by the closing brace. *)
Lemma members_brace (fuel : nat) (key : string) (v : json) (k : string) acc :
  simple v →
  members (S fuel) (quote key (String ":" (String " " (emit v (String "}" k))))) acc
  = Some (dict_set acc key v, k).
Proof.
  intros Hv. unfold quote. cbn -[emit]. tests.
  rewrite unquote_escape. cbn -[emit]. tests.
  rewrite skip_ws_emit, scalar_emit by done. cbn -[emit]. by tests.
Qed.

Lemma members_space (fuel : nat) (s : string) acc :
  members fuel (String " " s) acc = members fuel s acc.
Proof. by destruct fuel. Qed.

Lemma emit_simple_app (v : json) (k k' : string) :
  simple v → emit v k +:+ k' = emit v (k +:+ k').
Proof.
  destruct v; try done; intros _; simpl.
  - apply StrFacts.app_assoc.
  - unfold quote. simpl. by rewrite escape_app.
Qed.

Lemma quote_app (s k k' : string) : quote s k +:+ k' = quote s (k +:+ k').
Proof. apply (emit_simple_app (JStr s)). done. Qed.

Lemma has_newline_emit (v : json) (k : string) :
  simple v → Str.has_newline (emit v k) = Str.has_newline k.
Proof.
  destruct v; try done; intros _; simpl.
  - apply has_newline_of_int.
  - by rewrite has_newline_escape.
Qed.

(** The text of a book's dictionary, piece by piece. *)
Lemma emit_book (book : Book.t) (k : string) :
  emit (Book.to_dict book) k =
  String "{" (quote "id" (String ":" (String " " (emit (JInt (Book.id book))
    (String "," (String " " (quote "title" (String ":" (String " " (emit (JStr (Book.title book))
    (String "," (String " " (quote "author" (String ":" (String " " (emit (JStr (Book.author book))
    (String "," (String " " (quote "year" (String ":" (String " " (emit (JInt (Book.year book))
    (String "," (String " " (quote "status" (String ":" (String " " (emit (JStr (Book.status book))
    (String "}" k))))))))))))))))))))))))))))).
Proof. done. Qed.

Lemma dumps_app (book : Book.t) (k : string) :
  dumps (Book.to_dict book) +:+ k = emit (Book.to_dict book) k.
Proof.
  unfold dumps. rewrite !emit_book.
  repeat first [ rewrite quote_app | rewrite emit_simple_app by done
               | progress change (String ?c ?s +:+ ?t) with (String c (s +:+ t)) ].
  done.
Qed.

Lemma value_object (body : string) :
  value (String "{" (String dquote body))
  = r ← members (String.length (String "{" (String dquote body)))
                (String dquote body) [];
    Some (JDict r.1, r.2).
Proof. done. Qed.

(** Law 1: a line written for a book decodes to the book's dictionary. *)
Lemma loads_line (book : Book.t) :
  loads (Store.line_of dumps book) = Some (Book.to_dict book).
Proof.
  unfold Store.line_of. rewrite dumps_app, emit_book. unfold quote at 1.
  remember (escape "id" _) as body eqn:Hbody.
  assert (members 5 (String dquote body) []
          = Some (match Book.to_dict book with JDict m => m | _ => [] end,
                  LibraryManager.nl)) as Hm.
  { subst body. change (String dquote (escape ?s (String dquote ?k))) with (quote s k).
    rewrite members_comma, members_space by done.
    rewrite members_comma, members_space by done.
    rewrite members_comma, members_space by done.
    rewrite members_comma, members_space by done.
    by rewrite members_brace. }
  assert (5 ≤ String.length (String "{" (String dquote body))) as Hlen.
  { subst body. cbn [String.length]. 
    change (escape "id" ?k) with (String "i" (String "d" k)).
    cbn [String.length]. lia. }
  apply (members_mono _ _ _ _ _ Hm) in Hlen.
  unfold loads.
  change (skip_ws (String "{" ?x)) with (String "{" x).
  rewrite value_object, Hlen. done.
Qed.

(** Law 2: the text of a book's dictionary has no newline in it. *)
Lemma dumps_no_newline (book : Book.t) :
  Str.has_newline (dumps (Book.to_dict book)) = false.
Proof.
  unfold dumps. rewrite emit_book. unfold quote.
  cbn -[emit escape].
  repeat first [ rewrite has_newline_escape | rewrite has_newline_emit by done
               | progress cbn -[emit escape] ].
  done.
Qed.

Lemma laws : Store.codec_laws loads dumps.
Proof. split; [apply loads_line|apply dumps_no_newline]. Qed.

End CodecFacts.

(** ** Loading and saving *)

Module StoreFacts.

#[local] Arguments String.append !_ _ / : simpl nomatch.

Lemma from_dict_to_dict (book : Book.t) :
  Book.from_dict (Book.to_dict book) = Return book.
Proof. by destruct book. Qed.

(** [from_dict] raises [TypeError], [KeyError] or [Mistyped], nothing else. *)
Lemma from_dict_not_missing_file (data : json) :
  Book.from_dict data ≠ Raise FileNotFoundError.
Proof.
  destruct data as [| | | | |members]; try done.
  unfold Book.from_dict, Book.subscript.
  destruct (dict_get members "id") as [v1|]; [|done].
  destruct (dict_get members "title") as [v2|]; [|done].
  destruct (dict_get members "author") as [v3|]; [|done].
  destruct (dict_get members "year") as [v4|]; [|done].
  destruct (dict_get members "status") as [v5|]; [|done].
  simpl. destruct v1; try done. destruct v2; try done. destruct v3; try done.
  destruct v4; try done. by destruct v5.
Qed.

Section Manager.

Variable json_loads : string → option json.
Variable json_dumps : json → string.

Abbreviation for_line := (LibraryManager.for_line json_loads).
Abbreviation _load_books := (LibraryManager._load_books json_loads).
Abbreviation for_book := (LibraryManager.for_book json_dumps).
Abbreviation _save_books := (LibraryManager._save_books json_dumps).
Abbreviation line_of := (Store.line_of json_dumps).
Abbreviation text_of := (Store.text_of json_dumps).

Lemma for_line_app (lines lines' : list string) (acc : list Book.t) :
  for_line (lines ++ lines') acc = for_line lines acc ≫= for_line lines'.
Proof.
  revert acc. induction lines as [|line lines IH]; intros acc; simpl; [done|].
  destruct (json_loads line) as [data|]; [|done].
  destruct (Book.from_dict data) as [book| |]; simpl; [|done..]. apply IH.
Qed.

Lemma for_line_not_missing_file (lines : list string) (acc : list Book.t) :
  for_line lines acc ≠ Raise FileNotFoundError.
Proof.
  revert acc. induction lines as [|line lines IH]; intros acc; simpl; [done|].
  destruct (json_loads line) as [data|]; [|done].
  pose proof (from_dict_not_missing_file data).
  destruct (Book.from_dict data) as [book| |]; simpl; [apply IH|congruence..].
Qed.

(** Loading reads the file and leaves the world as it is. *)
Lemma load_run (w : world) :
  _load_books w =
  (match file w with
   | None => Return []
   | Some text => for_line (Str.readlines text) []
   end, w).
Proof.
  unfold LibraryManager._load_books, try_except_FileNotFoundError.
  unfold mbind, M_bind, bind, open_r, lift.
  destruct (file w) as [text|]; [|done].
  pose proof (for_line_not_missing_file (Str.readlines text) []).
  destruct (for_line (Str.readlines text) []) as [|[]|]; done.
Qed.

Lemma load_absent (w : world) : file w = None → _load_books w = (Return [], w).
Proof. intros H. by rewrite load_run, H. Qed.

Lemma for_book_run (books : list Book.t) (text : string) (t : list event) :
  for_book books {| file := Some text; trace := t |} =
  (Return tt, {| file := Some (text +:+ text_of books);
                 trace := t ++ (Written ∘ line_of <$> books) |}).
Proof.
  revert text t. induction books as [|book books IH]; intros text t; simpl.
  - by rewrite StrFacts.app_nil_r, app_nil_r.
  - unfold mbind, M_bind, bind, write. simpl. rewrite IH.
    by rewrite StrFacts.app_assoc, <- app_assoc.
Qed.

(** Saving replaces the file by one line for each book. *)
Lemma save_run (books : list Book.t) (w : world) :
  _save_books books w =
  (Return tt, {| file := Some (text_of books);
                 trace := trace w ++ Truncated :: (Written ∘ line_of <$> books) |}).
Proof.
  unfold LibraryManager._save_books, mbind, M_bind, bind, open_w.
  rewrite for_book_run. simpl. by rewrite <- app_assoc.
Qed.

Lemma terminated_text_of (books : list Book.t) :
  Str.terminated (text_of books) = true.
Proof.
  induction books as [|book books IH]; [done|].
  simpl. apply LineFacts.terminated_app; [|done].
  apply LineFacts.terminated_line.
Qed.

Hypothesis laws : Store.codec_laws json_loads json_dumps.

Lemma readlines_text_of (books : list Book.t) :
  Str.readlines (text_of books) = line_of <$> books.
Proof.
  induction books as [|book books IH]; [done|].
  simpl. unfold Store.line_of at 1.
  rewrite StrFacts.app_assoc, LineFacts.readlines_line
    by apply (Store.dumps_one_line _ _ laws).
  by rewrite IH.
Qed.

Lemma for_line_lines_of (books acc : list Book.t) :
  for_line (line_of <$> books) acc = Return (acc ++ books).
Proof.
  revert acc. induction books as [|book books IH]; intros acc; simpl.
  - by rewrite app_nil_r.
  - rewrite (Store.loads_dumps _ _ laws), from_dict_to_dict. simpl.
    by rewrite IH, <- app_assoc.
Qed.

(** What was saved is what is loaded. *)
Lemma load_text_of (books : list Book.t) (t : list event) :
  _load_books {| file := Some (text_of books); trace := t |}
  = (Return books, {| file := Some (text_of books); trace := t |}).
Proof. rewrite load_run. simpl. by rewrite readlines_text_of, for_line_lines_of. Qed.

(** A line appended to a well-formed file is one more book. *)
Lemma load_appended (text : string) (books : list Book.t) (book : Book.t) (t t' : list event) :
  Str.terminated text = true →
  _load_books {| file := Some text; trace := t |}
    = (Return books, {| file := Some text; trace := t |}) →
  _load_books {| file := Some (text +:+ line_of book); trace := t' |}
    = (Return (books ++ [book]), {| file := Some (text +:+ line_of book); trace := t' |}).
Proof.
  intros Hterm. rewrite !load_run. simpl. intros [= Hload].
  rewrite LineFacts.readlines_app by done.
  rewrite for_line_app, Hload. simpl.
  pose proof (LineFacts.readlines_line _ "" (Store.dumps_one_line _ _ laws book)) as Hline.
  simpl in Hline. unfold Store.line_of at 1. unfold LibraryManager.nl at 1.
  rewrite Hline. simpl.
  fold LibraryManager.nl. fold (line_of book).
  by rewrite (Store.loads_dumps _ _ laws), from_dict_to_dict.
Qed.

(** The same, for a file that may be absent. *)
Lemma holds_appended (w : world) (books : list Book.t) (book : Book.t) (t : list event) :
  Store.terminated w →
  _load_books w = (Return books, w) →
  Store.holds json_loads
    {| file := Some (default "" (file w) +:+ line_of book); trace := t |}
    (books ++ [book]).
Proof.
  intros Hterm Hload. destruct w as [[text|] t0]; simpl in *.
  - split.
    + unfold Store.terminated. simpl.
      apply LineFacts.terminated_app; [done|apply LineFacts.terminated_line].
    + by apply (load_appended text books book t0 t).
  - rewrite load_run in Hload. simpl in Hload. injection Hload as <-.
    split.
    + unfold Store.terminated. simpl. apply LineFacts.terminated_line.
    + apply (load_appended "" [] book [] t); [done|]. by rewrite load_run.
Qed.

End Manager.

End StoreFacts.

(** ** The loop of [_generate_id] *)

Module IdFacts.

(** The loop started at [start] stops at the first unused value [r] at or
    after it, having tested its condition [r - start + 1] times. *)
Lemma while_in_fuel (fuel : nat) (used_ids : gset Z) (start r : Z) :
  (start ≤ r)%Z →
  (∀ k : Z, (start ≤ k < r)%Z → k ∈ used_ids) →
  r ∉ used_ids →
  LibraryManager.while_in fuel used_ids start =
  if decide (r - start < Z.of_nat fuel)%Z then Return r else OutOfFuel.
Proof.
  revert start. induction fuel as [|fuel IH]; intros start Hle Hused Hr.
  - simpl. case_decide; [lia|done].
  - simpl. destruct (decide (start ∈ used_ids)) as [Hin|Hnot].
    + assert (start ≠ r) by (by intros ->).
      rewrite IH; [|lia|intros k Hk; apply Hused; lia|done].
      repeat case_decide; try done; lia.
    + assert (start = r) as ->.
      { destruct (decide (start = r)) as [|Hne]; [done|].
        destruct Hnot. apply Hused. lia. }
      case_decide; [done|lia].
Qed.

Lemma size_ids (ids : list Z) : size (list_to_set ids : gset Z) ≤ length ids.
Proof.
  induction ids as [|x ids IH].
  - by rewrite list_to_set_nil, size_empty.
  - rewrite list_to_set_cons, size_union_alt, size_singleton. simpl length.
    assert (size (list_to_set ids ∖ {[x]} : gset Z) ≤ size (list_to_set ids : gset Z))
      by (apply subseteq_size, subseteq_difference_l; done).
    lia.
Qed.

(** Among [start], ..., [start + n] one value is unused when at most [n] used
    values are at or after [start]. *)
Lemma first_unused (n : nat) (used_ids : gset Z) (start : Z) :
  size (filter (λ x, start ≤ x)%Z used_ids) ≤ n →
  ∃ r : Z, (start ≤ r ≤ start + Z.of_nat n)%Z ∧ (r ∉ used_ids)
           ∧ (∀ k : Z, (start ≤ k < r)%Z → k ∈ used_ids).
Proof.
  revert start. induction n as [|n IH]; intros start Hsize.
  - exists start. split; [lia|]. split; [|lia].
    intros Hin.
    assert (filter (λ x, start ≤ x)%Z used_ids ≡ ∅) as Hempty
      by (apply size_empty_iff; lia).
    assert (start ∈ filter (λ x, start ≤ x)%Z used_ids) as Hstart
      by (apply elem_of_filter; split; [lia|done]).
    rewrite Hempty in Hstart. by apply not_elem_of_empty in Hstart.
  - destruct (decide (start ∈ used_ids)) as [Hin|Hnot].
    + destruct (IH (start + 1)%Z) as (r & Hr & Hfree & Hbelow).
      { assert (filter (λ x, start + 1 ≤ x)%Z used_ids
                ⊂ filter (λ x, start ≤ x)%Z used_ids) as Hsub.
        { split.
          - intros x [Hx ?]%elem_of_filter. apply elem_of_filter. split; [lia|done].
          - intros Hsub.
            assert (start ∈ filter (λ x, start + 1 ≤ x)%Z used_ids) as Hbad
              by (apply Hsub, elem_of_filter; split; [lia|done]).
            apply elem_of_filter in Hbad. lia. }
        apply subset_size in Hsub. lia. }
      exists r. split; [lia|]. split; [done|].
      intros k Hk. destruct (decide (k = start)) as [->|]; [done|].
      apply Hbelow. lia.
    + exists start. split; [lia|]. split; [done|lia].
Qed.

(** [_generate_id]'s loop on the ids of [n] records: the first unused
    positive integer, which is at most [n + 1]. *)
Lemma smallest_unused_exists (ids : list Z) :
  ∃ r : Z, Spec.smallest_unused ids r ∧ (r ≤ Z.of_nat (length ids) + 1)%Z.
Proof.
  destruct (first_unused (length ids) (list_to_set ids) 1) as (r & Hr & Hfree & Hbelow).
  { etrans; [|apply size_ids].
    apply subseteq_size. intros x [_ ?]%elem_of_filter. done. }
  exists r. split; [|lia]. split; [lia|]. split.
  - by rewrite elem_of_list_to_set in Hfree.
  - intros k Hk. apply Hbelow in Hk. by rewrite elem_of_list_to_set in Hk.
Qed.

Lemma smallest_unused_unique (ids : list Z) (r r' : Z) :
  Spec.smallest_unused ids r → Spec.smallest_unused ids r' → r = r'.
Proof.
  intros (H1 & Hfree & Hbelow) (H1' & Hfree' & Hbelow').
  destruct (Z.lt_trichotomy r r') as [Hlt|[->|Hlt]]; [|done|].
  - destruct Hfree. apply Hbelow'. lia.
  - destruct Hfree'. apply Hbelow. lia.
Qed.

Lemma while_in_smallest (fuel : nat) (ids : list Z) (r : Z) :
  Spec.smallest_unused ids r →
  LibraryManager.while_in fuel (list_to_set ids) 1 =
  if decide (r ≤ Z.of_nat fuel)%Z then Return r else OutOfFuel.
Proof.
  intros (H1 & Hfree & Hbelow).
  rewrite (while_in_fuel fuel _ 1 r); [|done| |].
  - repeat case_decide; try done; lia.
  - intros k Hk. apply elem_of_list_to_set. by apply Hbelow.
  - by rewrite elem_of_list_to_set.
Qed.

End IdFacts.

(** ** What each operation does to a world that loads *)

Module OpFacts.

Lemma elem_of_ids (books : list Book.t) (book_id : Z) :
  book_id ∈ Store.ids books ↔ ∃ book, book ∈ books ∧ Book.id book = book_id.
Proof.
  unfold Store.ids. rewrite list_elem_of_fmap.
  split; intros (book & ? & ?); by exists book.
Qed.

Lemma ids_cons (book : Book.t) (books : list Book.t) :
  Store.ids (book :: books) = Book.id book :: Store.ids books.
Proof. done. Qed.

Lemma ids_app (books books' : list Book.t) :
  Store.ids (books ++ books') = Store.ids books ++ Store.ids books'.
Proof. apply fmap_app. Qed.

Lemma filter_all {A} (P : A → Prop) `{∀ x, Decision (P x)} (l : list A) :
  Forall P l → filter P l = l.
Proof.
  induction 1 as [|x l Hx Hl IH]; [done|].
  rewrite filter_cons_True by done. by rewrite IH.
Qed.

(** The test [len(books) == len(updated_books)] of [delete_book]. *)
Lemma kept_all (books : list Book.t) (book_id : Z) :
  (length books =? length (filter (λ book, Book.id book ≠ book_id) books))
  = bool_decide (book_id ∉ Store.ids books).
Proof.
  case_bool_decide as Hin.
  - rewrite filter_all; [apply Nat.eqb_refl|].
    apply Forall_forall. intros book Hbook Hid. apply Hin, elem_of_ids. eauto.
  - apply Nat.eqb_neq.
    assert (book_id ∈ Store.ids books) as (book & Hbook & Hid)%elem_of_ids
      by (by destruct (decide (book_id ∈ Store.ids books))).
    pose proof (length_filter_lt (λ book, Book.id book ≠ book_id) books book Hbook).
    lia.
Qed.

Lemma book_change_status_run (book : Book.t) (status : string) (w : world) :
  Book.change_status book status w
  = (Return (Store.with_status book status),
     Store.after w [Printed (Store.status_report book status)]).
Proof.
  unfold Book.change_status, Store.with_status, Store.status_report.
  destruct (decide (status ∈ [Book.AVAILABLE; Book.LOANED])) as [Hin|Hnot].
  - rewrite (bool_decide_eq_true_2 _ Hin), bool_decide_eq_false_2 by auto. done.
  - rewrite (bool_decide_eq_false_2 _ Hnot), bool_decide_eq_true_2 by auto. done.
Qed.

Lemma after_nil (w : world) : Store.after w [] = w.
Proof. destruct w. unfold Store.after. simpl. by rewrite app_nil_r. Qed.

(** The loop of [change_status]. *)
Lemma for_first_run (books : list Book.t) (book_id : Z) (status : string) (w : world) :
  LibraryManager.for_first books book_id status w
  = (Return (Store.update_first books book_id status,
             bool_decide (book_id ∈ Store.ids books)),
     Store.after w match Store.first_with books book_id with
                   | Some book => [Printed (Store.status_report book status)]
                   | None => []
                   end).
Proof.
  induction books as [|book books IH];
    cbn [LibraryManager.for_first Store.update_first Store.first_with].
  - rewrite after_nil. rewrite bool_decide_eq_false_2; [done|]. by intros ?%elem_of_nil.
  - destruct (Z.eqb_spec (Book.id book) book_id) as [Heq|Hne].
    + unfold mbind, M_bind, bind. rewrite book_change_status_run.
      rewrite bool_decide_eq_true_2; [done|]. rewrite <- Heq. apply list_elem_of_here.
    + unfold mbind, M_bind, bind. rewrite IH. cbn [fst snd].
      unfold mret, M_ret, ret. do 3 f_equal. apply bool_decide_ext.
      unfold Store.ids. rewrite fmap_cons, elem_of_cons.
      split; [by right|]. by intros [?|?].
Qed.

Lemma update_first_ids (books : list Book.t) (book_id : Z) (status : string) :
  Store.ids (Store.update_first books book_id status) = Store.ids books.
Proof.
  induction books as [|book books IH]; simpl; [done|].
  destruct (Book.id book =? book_id)%Z; simpl; [|by rewrite IH].
  unfold Store.with_status. by case_bool_decide.
Qed.

Lemma update_first_invalid (books : list Book.t) (book_id : Z) (status : string) :
  status ∉ [Book.AVAILABLE; Book.LOANED] →
  Store.update_first books book_id status = books.
Proof.
  intros Hnot. induction books as [|book books IH]; simpl; [done|].
  destruct (Book.id book =? book_id)%Z; [|by rewrite IH].
  unfold Store.with_status. by rewrite bool_decide_eq_false_2.
Qed.

(** The book the loop changes is the first one with the id. *)
Lemma update_first_split (before after : list Book.t) (book : Book.t) (status : string) :
  Book.id book ∉ Store.ids before →
  Store.update_first (before ++ book :: after) (Book.id book) status
    = before ++ Store.with_status book status :: after
  ∧ Store.first_with (before ++ book :: after) (Book.id book) = Some book.
Proof.
  induction before as [|b before IH]; intros Hnot; simpl.
  - by rewrite Z.eqb_refl.
  - rewrite ids_cons, not_elem_of_cons in Hnot.
    destruct Hnot as [Hne Hnot].
    destruct (Z.eqb_spec (Book.id b) (Book.id book)) as [Heq|_]; [by destruct Hne|].
    destruct (IH Hnot) as [-> ->]. done.
Qed.

Lemma first_with_missing (books : list Book.t) (book_id : Z) :
  book_id ∉ Store.ids books → Store.first_with books book_id = None.
Proof.
  induction books as [|b books IH]; [done|].
  rewrite ids_cons, not_elem_of_cons. intros [Hne Hnot]. simpl.
  destruct (Z.eqb_spec (Book.id b) book_id) as [Heq|_]; [by destruct Hne|].
  by apply IH.
Qed.

End OpFacts.

Module RunFacts.

Section Manager.

Variable json_loads : string → option json.
Variable json_dumps : json → string.

Abbreviation _load_books := (LibraryManager._load_books json_loads).
Abbreviation _save_books := (LibraryManager._save_books json_dumps).
Abbreviation _generate_id := (LibraryManager._generate_id json_loads).
Abbreviation add_book := (LibraryManager.add_book json_loads json_dumps).
Abbreviation delete_book := (LibraryManager.delete_book json_loads json_dumps).
Abbreviation change_status := (LibraryManager.change_status json_loads json_dumps).
Abbreviation line_of := (Store.line_of json_dumps).
Abbreviation text_of := (Store.text_of json_dumps).
Abbreviation writes := (Store.writes json_dumps).
Abbreviation rewritten := (Store.rewritten json_dumps).

(** Running [m] then [k] from a world where [m] returns. *)
Lemma bind_run {A B} (m : M A) (k : A → M B) (w w' : world) (a : A) :
  m w = (Return a, w') → (m ≫= k) w = k a w'.
Proof. intros H. unfold mbind, M_bind, bind. by rewrite H. Qed.

Lemma bind_raise {A B} (m : M A) (k : A → M B) (w w' : world) (e : exn) :
  m w = (Raise e, w') → (m ≫= k) w = (Raise e, w').
Proof. intros H. unfold mbind, M_bind, bind. by rewrite H. Qed.

Lemma generate_id_run (w : world) (books : list Book.t) (r : Z) :
  _load_books w = (Return books, w) →
  Spec.smallest_unused (Store.ids books) r →
  _generate_id w = (Return r, w).
Proof.
  intros Hload Hr. unfold LibraryManager._generate_id.
  rewrite (bind_run _ _ _ _ _ Hload). unfold lift.
  change (Book.id <$> books) with (Store.ids books).
  rewrite (IdFacts.while_in_smallest _ _ r Hr).
  destruct (IdFacts.smallest_unused_exists (Store.ids books)) as (r' & Hr' & Hle).
  rewrite (IdFacts.smallest_unused_unique _ _ _ Hr Hr').
  unfold Store.ids in Hle. rewrite length_fmap in Hle.
  case_decide; [done|lia].
Qed.

Lemma add_book_run (w : world) (books : list Book.t) (r : Z)
    (title author : string) (year : Z) :
  _load_books w = (Return books, w) →
  Spec.smallest_unused (Store.ids books) r →
  let new_book := Book.Build r title author year Book.AVAILABLE in
  add_book title author year w
  = (Return tt,
     {| file := Some (default "" (file w) +:+ line_of new_book);
        trace := trace w ++ [Written (line_of new_book); Printed (Store.added title)] |}).
Proof.
  intros Hload Hr new_book. unfold LibraryManager.add_book.
  rewrite (bind_run _ _ _ _ _ (generate_id_run _ _ _ Hload Hr)).
  unfold mbind, M_bind, bind, open_a, write, print, log. simpl.
  by rewrite <- app_assoc.
Qed.

Lemma delete_book_run (w : world) (books : list Book.t) (book_id : Z) :
  _load_books w = (Return books, w) →
  let kept := filter (λ book, Book.id book ≠ book_id) books in
  delete_book book_id w
  = (Return tt,
     if decide (book_id ∈ Store.ids books)
     then rewritten w kept (writes kept ++ [Printed (Store.deleted_ID book_id)])
     else Store.after w [Printed (Store.not_found_ID book_id)]).
Proof.
  intros Hload kept. unfold LibraryManager.delete_book.
  rewrite (bind_run _ _ _ _ _ Hload). rewrite OpFacts.kept_all.
  destruct (decide (book_id ∈ Store.ids books)) as [Hin|Hnot].
  - rewrite bool_decide_eq_false_2 by auto.
    unfold mbind, M_bind, bind. rewrite StoreFacts.save_run.
    unfold print, log, Store.rewritten, Store.writes. simpl.
    by rewrite <- !app_assoc.
  - by rewrite bool_decide_eq_true_2.
Qed.

Lemma change_status_run (w : world) (books : list Book.t) (book_id : Z) (status : string) :
  _load_books w = (Return books, w) →
  let books' := Store.update_first books book_id status in
  change_status book_id status w
  = (Return tt,
     match Store.first_with books book_id with
     | Some book =>
         rewritten w books' (Printed (Store.status_report book status) :: writes books')
     | None => Store.after w [Printed (Store.not_found_id book_id)]
     end).
Proof.
  intros Hload books'. unfold LibraryManager.change_status.
  rewrite (bind_run _ _ _ _ _ Hload).
  rewrite (bind_run _ _ _ _ _ (OpFacts.for_first_run _ _ _ _)). cbn [fst snd].
  destruct (decide (book_id ∈ Store.ids books)) as [Hin|Hnot].
  - rewrite bool_decide_eq_true_2 by done. cbn [negb].
    rewrite StoreFacts.save_run.
    destruct (Store.first_with books book_id) as [book|] eqn:Hfirst.
    + unfold Store.rewritten, Store.after, Store.writes. simpl.
      by rewrite <- app_assoc.
    + exfalso. clear Hload. induction books as [|b books IH]; [by apply elem_of_nil in Hin|].
      simpl in Hfirst. rewrite OpFacts.ids_cons, elem_of_cons in Hin.
      destruct (Z.eqb_spec (Book.id b) book_id); [done|].
      destruct Hin as [?|?]; [congruence|]. by apply IH.
  - rewrite bool_decide_eq_false_2 by done. cbn [negb].
    rewrite OpFacts.first_with_missing by done.
    rewrite OpFacts.after_nil. done.
Qed.

(** Printing does not change what the file holds. *)
Lemma load_after (w : world) (books : list Book.t) (events : list event) :
  _load_books w = (Return books, w) →
  _load_books (Store.after w events) = (Return books, Store.after w events).
Proof.
  rewrite !StoreFacts.load_run. simpl. by intros [= ->].
Qed.

(** Each operation keeps the ids distinct, and the last line closed. *)
Lemma add_book_keeps (w : world) (title author : string) (year : Z) :
  Store.codec_laws json_loads json_dumps →
  Store.distinct_ids json_loads w → Store.terminated w →
  ∃ w' : world,
    add_book title author year w = (Return tt, w')
    ∧ Store.distinct_ids json_loads w' ∧ Store.terminated w'.
Proof.
  intros laws (books & Hload & Hdistinct) Hterm.
  destruct (IdFacts.smallest_unused_exists (Store.ids books)) as (r & Hr & _).
  eexists. split; [by apply (add_book_run _ books r)|].
  destruct (StoreFacts.holds_appended json_loads json_dumps laws w books
              (Book.Build r title author year Book.AVAILABLE)
              (trace w ++ [Written (line_of (Book.Build r title author year
                                               Book.AVAILABLE));
                           Printed (Store.added title)]) Hterm Hload)
    as [Hterm' Hload'].
  split; [|done]. eexists. split; [exact Hload'|].
  rewrite OpFacts.ids_app. apply NoDup_app. split; [done|]. split.
  - intros x Hx [->|[]%elem_of_nil]%elem_of_cons. by destruct Hr as (_ & Hfree & _).
  - apply NoDup_singleton.
Qed.

Lemma delete_book_keeps (w : world) (book_id : Z) :
  Store.codec_laws json_loads json_dumps →
  Store.distinct_ids json_loads w →
  ∃ w' : world,
    delete_book book_id w = (Return tt, w')
    ∧ Store.distinct_ids json_loads w'
    ∧ (Store.terminated w → Store.terminated w').
Proof.
  intros laws (books & Hload & Hdistinct).
  eexists. split; [by apply delete_book_run|].
  assert (NoDup (Store.ids (filter (λ book, Book.id book ≠ book_id) books)))
    by (eapply sublist_NoDup; [done|]; apply fmap_sublist, sublist_filter).
  destruct (decide (book_id ∈ Store.ids books)) as [Hin|Hnot].
  - split; [|intros _; apply StoreFacts.terminated_text_of].
    eexists. split; [|done].
    by apply (StoreFacts.load_text_of json_loads json_dumps laws).
  - split; [|done]. exists books. split; [by apply load_after|done].
Qed.

Lemma change_status_keeps (w : world) (book_id : Z) (status : string) :
  Store.codec_laws json_loads json_dumps →
  Store.distinct_ids json_loads w →
  ∃ w' : world,
    change_status book_id status w = (Return tt, w')
    ∧ Store.distinct_ids json_loads w'
    ∧ (Store.terminated w → Store.terminated w').
Proof.
  intros laws (books & Hload & Hdistinct).
  eexists. split; [by apply change_status_run|].
  destruct (Store.first_with books book_id) eqn:Hfirst.
  - split; [|intros _; apply StoreFacts.terminated_text_of].
    eexists. split; [by apply (StoreFacts.load_text_of json_loads json_dumps laws)|].
    by rewrite OpFacts.update_first_ids.
  - split; [|done]. exists books. split; [by apply load_after|done].
Qed.

(** At all times of a session that starts with distinct ids and a closed
    last line, the ids are distinct. *)
Lemma session_keeps (calls : list Session.call) (w : world) :
  Store.codec_laws json_loads json_dumps →
  Store.distinct_ids json_loads w → Store.terminated w →
  ∃ w' : world,
    Session.run_all json_loads json_dumps calls w = (Return tt, w')
    ∧ Store.distinct_ids json_loads w' ∧ Store.terminated w'.
Proof.
  intros laws. revert w. induction calls as [|c calls IH]; intros w Hdistinct Hterm.
  - by exists w.
  - assert (∃ w1, Session.run json_loads json_dumps c w = (Return tt, w1)
                  ∧ Store.distinct_ids json_loads w1 ∧ Store.terminated w1)
      as (w1 & Hrun & Hdistinct1 & Hterm1).
    { destruct c as [title author year|book_id|book_id status]; simpl.
      - by apply add_book_keeps.
      - destruct (delete_book_keeps w book_id laws Hdistinct) as (w1 & ? & ? & ?).
        exists w1. auto.
      - destruct (change_status_keeps w book_id status laws Hdistinct)
          as (w1 & ? & ? & ?).
        exists w1. auto. }
    destruct (IH w1 Hdistinct1 Hterm1) as (w' & Hrest & ? & ?).
    exists w'. split; [|done]. simpl. by rewrite (bind_run _ _ _ _ _ Hrun).
Qed.

End Manager.

End RunFacts.

(** ** Failing loads, and the search predicate *)

Module LoadFacts.

Lemma from_dict_returns_or_raises (data : json) :
  Book.from_dict data ≠ OutOfFuel.
Proof.
  destruct data as [| | | | |members]; try done.
  unfold Book.from_dict, Book.subscript.
  destruct (dict_get members "id") as [v1|]; [|done].
  destruct (dict_get members "title") as [v2|]; [|done].
  destruct (dict_get members "author") as [v3|]; [|done].
  destruct (dict_get members "year") as [v4|]; [|done].
  destruct (dict_get members "status") as [v5|]; [|done].
  simpl. destruct v1; try done. destruct v2; try done. destruct v3; try done.
  destruct v4; try done. by destruct v5.
Qed.

Section Manager.

Variable json_loads : string → option json.

Abbreviation for_line := (LibraryManager.for_line json_loads).
Abbreviation _load_books := (LibraryManager._load_books json_loads).

Lemma for_line_returns_or_raises (lines : list string) (acc : list Book.t) :
  for_line lines acc ≠ OutOfFuel.
Proof.
  revert acc. induction lines as [|line lines IH]; intros acc; simpl; [done|].
  destruct (json_loads line) as [data|]; [|done].
  pose proof (from_dict_returns_or_raises data).
  destruct (Book.from_dict data) as [book| |]; simpl; [apply IH|congruence..].
Qed.

Lemma load_returns_or_raises (w : world) : (_load_books w).1 ≠ OutOfFuel.
Proof.
  rewrite StoreFacts.load_run. simpl.
  destruct (file w); [apply for_line_returns_or_raises|done].
Qed.



End Manager.

Lemma selects_filter {A} (P Q : A → Prop) `{∀ x, Decision (P x)} (l : list A) :
  (∀ x, P x ↔ Q x) → Spec.selects Q l (filter P l).
Proof.
  intros HPQ. induction l as [|x l IH]; [constructor|].
  destruct (decide (P x)) as [Hx|Hx].
  - rewrite filter_cons_True by done. constructor; [by apply HPQ|done].
  - rewrite filter_cons_False by done. constructor; [by rewrite <- HPQ|done].
Qed.

(** [selects] determines its result. *)
Lemma selects_unique {A} (P : A → Prop) (l l1 l2 : list A) :
  Spec.selects P l l1 → Spec.selects P l l2 → l1 = l2.
Proof.
  intros H1. revert l2. induction H1; intros l2 H2; inversion H2; subst;
    try done; f_equal; auto.
Qed.

(** What is selected is a part of the sequence, in its order. *)
Lemma selects_sublist {A} (P : A → Prop) (l l' : list A) :
  Spec.selects P l l' → l' `sublist_of` l.
Proof. induction 1; by constructor. Qed.

Lemma selects_elem_of {A} (P : A → Prop) (l l' : list A) (x : A) :
  Spec.selects P l l' → x ∈ l' ↔ x ∈ l ∧ P x.
Proof.
  induction 1 as [|y l l' Hy Hsel IH|y l l' Hy Hsel IH].
  - split; [by intros ?%elem_of_nil|by intros [?%elem_of_nil _]].
  - rewrite !elem_of_cons, IH. split.
    + intros [->|[? ?]]; auto.
    + intros [[->|?] ?]; auto.
  - rewrite elem_of_cons, IH. split.
    + intros [? ?]; auto.
    + intros [[->|?] ?]; [done|auto].
Qed.

Lemma selects_all {A} (P : A → Prop) (l : list A) :
  Forall P l → Spec.selects P l l.
Proof. induction 1; by constructor. Qed.

Lemma selects_app {A} (P : A → Prop) (l1 l1' l2 l2' : list A) :
  Spec.selects P l1 l1' → Spec.selects P l2 l2' →
  Spec.selects P (l1 ++ l2) (l1' ++ l2').
Proof. induction 1; intros H2; simpl; [done|by constructor; auto..]. Qed.

(** *** The search *)

Section Search.

Variable str_lower : string → string.
Variable str_isdigit : string → bool.
Variable py_int : string → option Z.

Abbreviation found := (LibraryManager.found str_lower str_isdigit py_int).
Abbreviation found_books := (LibraryManager.found_books str_lower str_isdigit py_int).
Abbreviation contains_ignoring_case := (Spec.contains_ignoring_case str_lower).
Abbreviation find_match := (Spec.find_match str_lower str_isdigit py_int).
Abbreviation readable := (Spec.readable str_isdigit py_int).

Lemma contains_ignoring_case_iff (text keyword : string) :
  Str.contains (str_lower text) (str_lower keyword) = true
  ↔ contains_ignoring_case text keyword.
Proof. apply StrFacts.contains_iff. Qed.

(** When the condition has a value, it is the specification's. *)
Lemma found_returns (keyword : string) (book : Book.t) (keep : bool) :
  found keyword book = Return keep → keep = true ↔ find_match keyword book.
Proof.
  unfold LibraryManager.found, Spec.find_match.
  rewrite <- !contains_ignoring_case_iff.
  destruct (Str.contains (str_lower (Book.title book)) _); [intros [= <-]; tauto|].
  destruct (Str.contains (str_lower (Book.author book)) _); [intros [= <-]; tauto|].
  destruct (str_isdigit keyword).
  - destruct (py_int keyword) as [n|]; [|done]. intros [= <-].
    rewrite Z.eqb_eq. split.
    + intros ->. auto.
    + intros [?|[?|[_ [= ->]]]]; done.
  - intros [= <-]. split; [done|]. intros [?|[?|[? _]]]; done.
Qed.

(** It has one when [int] accepts the keyword. *)
Lemma found_readable (keyword : string) (book : Book.t) :
  readable keyword → ∃ keep : bool, found keyword book = Return keep.
Proof.
  intros Hreadable. unfold LibraryManager.found.
  repeat (case_match; eauto).
  destruct Hreadable as [n Hn]; congruence.
Qed.

(** It never fails otherwise than by [ValueError]. *)
Lemma found_raises (keyword : string) (book : Book.t) (e : exn) :
  found keyword book = Raise e →
  e = ValueError keyword ∧ str_isdigit keyword = true ∧ py_int keyword = None.
Proof.
  unfold LibraryManager.found. repeat (case_match; try done).
  by intros [= <-].
Qed.

Lemma found_ends (keyword : string) (book : Book.t) :
  found keyword book ≠ OutOfFuel.
Proof. unfold LibraryManager.found. by repeat case_match. Qed.

Lemma found_books_returns (keyword : string) (books l : list Book.t) :
  found_books keyword books = Return l → Spec.selects (find_match keyword) books l.
Proof.
  revert l. induction books as [|book books IH]; intros l; simpl.
  - intros [= <-]. constructor.
  - destruct (found keyword book) as [keep| |] eqn:Hkeep; [|done..]. simpl.
    destruct (found_books keyword books) as [rest| |]; [|done..]. simpl.
    intros [= <-]. apply found_returns in Hkeep.
    destruct keep.
    + constructor; [by apply Hkeep|by apply IH].
    + constructor; [|by apply IH]. intros Hmatch. by apply Hkeep in Hmatch.
Qed.

Lemma found_books_readable (keyword : string) (books : list Book.t) :
  readable keyword → ∃ l, found_books keyword books = Return l.
Proof.
  intros Hreadable. induction books as [|book books [rest IH]]; simpl; [eauto|].
  destruct (found_readable keyword book Hreadable) as [keep ->]. rewrite IH.
  simpl. eauto.
Qed.

Lemma found_books_raises (keyword : string) (books : list Book.t) (e : exn) :
  found_books keyword books = Raise e →
  e = ValueError keyword ∧ str_isdigit keyword = true ∧ py_int keyword = None.
Proof.
  induction books as [|book books IH]; simpl; [done|].
  destruct (found keyword book) as [keep|e'|] eqn:Hkeep; simpl.
  - destruct (found_books keyword books) as [rest| |]; simpl; [done| |done].
    intros [= <-]. by apply IH.
  - intros [= <-]. by apply found_raises in Hkeep.
  - done.
Qed.

Lemma found_books_ends (keyword : string) (books : list Book.t) :
  found_books keyword books ≠ OutOfFuel.
Proof.
  induction books as [|book books IH]; simpl; [done|].
  pose proof (found_ends keyword book).
  destruct (found keyword book) as [keep| |]; simpl; [|done..].
  by destruct (found_books keyword books).
Qed.

(** One record that the keyword does not find by its text is enough for a
    keyword that [isdigit] accepts and [int] refuses to end the search. *)
Lemma found_books_unreadable (keyword : string) (books : list Book.t) (book : Book.t) :
  str_isdigit keyword = true → py_int keyword = None →
  book ∈ books →
  ¬ contains_ignoring_case (Book.title book) keyword →
  ¬ contains_ignoring_case (Book.author book) keyword →
  found_books keyword books = Raise (ValueError keyword).
Proof.
  intros Hdigit Hint Hin Htitle Hauthor.
  rewrite <- contains_ignoring_case_iff in Htitle, Hauthor.
  induction books as [|b books IH]; [by apply elem_of_nil in Hin|]. simpl.
  assert (found keyword book = Raise (ValueError keyword)) as Hbook.
  { unfold LibraryManager.found.
    destruct (Str.contains (str_lower (Book.title book)) _); [done|].
    destruct (Str.contains (str_lower (Book.author book)) _); [done|].
    by rewrite Hdigit, Hint. }
  apply elem_of_cons in Hin as [<-|Hin]; [by rewrite Hbook|].
  specialize (IH Hin).
  destruct (found keyword b) as [keep|e|] eqn:Hb; simpl.
  - by rewrite IH.
  - by apply found_raises in Hb as [-> _].
  - by apply found_ends in Hb.
Qed.

Lemma found_books_app (keyword : string) (l1 l2 : list Book.t) :
  found_books keyword (l1 ++ l2)
  = (a ← found_books keyword l1; b ← found_books keyword l2; mret (a ++ b)).
Proof.
  induction l1 as [|book l1 IH]; simpl.
  - by destruct (found_books keyword l2).
  - destruct (found keyword book) as [keep| |]; simpl; [|done..].
    rewrite IH. destruct (found_books keyword l1) as [a| |]; simpl; [|done..].
    destruct (found_books keyword l2) as [b| |]; simpl; [|done..].
    by destruct keep.
Qed.

End Search.

Section Find.

Variable json_loads : string → option json.
Variable str_lower : string → string.
Variable str_isdigit : string → bool.
Variable py_int : string → option Z.

Abbreviation _load_books := (LibraryManager._load_books json_loads).
Abbreviation found_books := (LibraryManager.found_books str_lower str_isdigit py_int).
Abbreviation find_books :=
  (LibraryManager.find_books json_loads str_lower str_isdigit py_int).

Lemma find_books_run (w : world) (books : list Book.t) (keyword : string) :
  _load_books w = (Return books, w) →
  find_books keyword w = (found_books keyword books, w).
Proof.
  intros Hload. unfold LibraryManager.find_books.
  by rewrite (RunFacts.bind_run _ _ _ _ _ Hload).
Qed.

(** The search leaves the world as it was. *)
Lemma find_books_world (w : world) (keyword : string) :
  (find_books keyword w).2 = w.
Proof.
  unfold LibraryManager.find_books, mbind, M_bind, bind.
  rewrite (StoreFacts.load_run json_loads w).
  by destruct (match file w with None => _ | Some _ => _ end).
Qed.

Lemma find_books_ends (w : world) (keyword : string) :
  (find_books keyword w).1 ≠ OutOfFuel.
Proof.
  unfold LibraryManager.find_books, mbind, M_bind, bind.
  pose proof (load_returns_or_raises json_loads w) as Hload.
  destruct (_load_books w) as [[books| |] w']; [|done..].
  apply found_books_ends.
Qed.

End Find.

End LoadFacts.

(** ** The reading of [Sample] *)

Module SampleFacts.

Lemma lower_char_no_letter (c c' : ascii) :
  Sample.letter c = false → Sample.lower_char c' = Sample.lower_char c → c' = c.
Proof.
  unfold Sample.letter, Sample.lower_char. cbv zeta. intros Hc.
  pose proof (N_ascii_bounded c') as Hbound.
  apply orb_false_iff in Hc as [Hupper Hlower]. rewrite Hupper.
  destruct ((65 <=? N_of_ascii c') && (N_of_ascii c' <=? 90))%N eqn:Hupper';
    [|done].
  apply andb_true_iff in Hupper' as [?%N.leb_le ?%N.leb_le].
  intros <-. rewrite N_ascii_embedding in Hlower by lia.
  apply andb_false_iff in Hlower as [Hc%N.leb_gt|Hc%N.leb_gt]; lia.
Qed.

Lemma lower_no_letter (k k' : string) :
  Sample.no_letter k = true → Sample.lower k' = Sample.lower k → k' = k.
Proof.
  revert k'. induction k as [|c k IH]; intros [|c' k']; try done.
  simpl. intros [Hc%negb_true_iff Hk]%andb_true_iff [= Hcc Hkk].
  by rewrite (lower_char_no_letter c c' Hc Hcc), (IH k' Hk Hkk).
Qed.

Lemma digits_no_letter (pending : bool) (k : string) :
  Sample.digits pending k = true → Sample.no_letter k = true.
Proof.
  revert pending. induction k as [|c k IH]; intros pending; [done|]. simpl.
  unfold Sample.is_superscript, Str.is_digit_char, Sample.letter. cbv zeta.
  intros H. apply andb_true_iff. split.
  - apply negb_true_iff, orb_false_iff.
    destruct pending.
    + apply andb_true_iff in H as [H _].
      apply orb_true_iff in H as [[?%N.eqb_eq|?%N.eqb_eq]%orb_true_iff|?%N.eqb_eq];
        split; apply andb_false_iff; right; apply N.leb_gt; lia.
    + destruct ((48 <=? N_of_ascii c) && (N_of_ascii c <=? 57))%N eqn:Hdigit.
      * apply andb_true_iff in Hdigit as [?%N.leb_le ?%N.leb_le].
        split; apply andb_false_iff; left; apply N.leb_gt; lia.
      * apply andb_true_iff in H as [?%N.eqb_eq _].
        split; apply andb_false_iff; right; apply N.leb_gt; lia.
  - destruct pending.
    + apply andb_true_iff in H as [_ H]. by apply (IH false).
    + destruct ((48 <=? N_of_ascii c) && (N_of_ascii c <=? 57))%N;
        [by apply (IH false)|].
      apply andb_true_iff in H as [_ H]. by apply (IH true).
Qed.

(** The reading of [Sample] has the digits without case. *)
Lemma digits_uncased : Spec.digits_uncased Sample.lower Sample.isdigit.
Proof.
  intros k k' Hdigit. apply lower_no_letter.
  destruct k; [done|]. by apply (digits_no_letter false).
Qed.

Lemma lower_char_digit (a b : ascii) :
  Str.is_digit_char a = true → Ascii.eqb a (Sample.lower_char b) = Ascii.eqb a b.
Proof.
  unfold Str.is_digit_char, Sample.lower_char. cbv zeta.
  intros [Ha1%N.leb_le Ha2%N.leb_le]%andb_true_iff.
  pose proof (N_ascii_bounded b) as Hbound.
  destruct ((65 <=? N_of_ascii b) && (N_of_ascii b <=? 90))%N eqn:Hupper; [|done].
  apply andb_true_iff in Hupper as [Hb1%N.leb_le Hb2%N.leb_le].
  destruct (Ascii.eqb_spec a b) as [->|_]; [lia|].
  apply Ascii.eqb_neq. intros ->.
  rewrite N_ascii_embedding in Ha2 by lia. lia.
Qed.

Lemma lower_numeral (n : string) : Spec.numeral n → Sample.lower n = n.
Proof.
  induction n as [|c n IH]; [done|]. simpl. intros [Hc Hn].
  rewrite (IH Hn). f_equal. revert Hc.
  unfold Str.is_digit_char, Sample.lower_char. cbv zeta.
  intros [H1%N.leb_le H2%N.leb_le]%andb_true_iff.
  destruct ((65 <=? N_of_ascii c) && (N_of_ascii c <=? 90))%N eqn:Hupper; [|done].
  apply andb_true_iff in Hupper as [?%N.leb_le ?%N.leb_le]. lia.
Qed.

Lemma startswith_lower (hay n : string) :
  Spec.numeral n → Str.startswith (Sample.lower hay) n = Str.startswith hay n.
Proof.
  revert hay. induction n as [|a n IH]; intros hay; [done|].
  intros [Ha Hn]. destruct hay as [|b hay]; [done|]. simpl.
  by rewrite (lower_char_digit a b Ha), (IH hay Hn).
Qed.

Lemma contains_lower (text n : string) :
  Spec.numeral n → Str.contains (Sample.lower text) n = Str.contains text n.
Proof.
  intros Hn. induction text as [|c text IH].
  - done.
  - change (Sample.lower (String c text))
      with (String (Sample.lower_char c) (Sample.lower text)).
    cbn [Str.contains]. rewrite IH.
    by rewrite <- (startswith_lower (String c text) n Hn).
Qed.

(** The reading of [Sample] keeps the digits. *)
Lemma digits_kept : Spec.digits_kept Sample.lower.
Proof.
  intros text n Hn. rewrite (lower_numeral n Hn).
  unfold Spec.contains. by rewrite <- !StrFacts.contains_iff, contains_lower.
Qed.

End SampleFacts.

(** * The properties of the catalogue *)

Module Properties.

Section Manager.

Variable json_loads : string → option json.
Variable json_dumps : json → string.
Variable str_lower : string → string.
Variable str_isdigit : string → bool.
Variable py_int : string → option Z.

Abbreviation for_line := (LibraryManager.for_line json_loads).
Abbreviation _load_books := (LibraryManager._load_books json_loads).
Abbreviation _save_books := (LibraryManager._save_books json_dumps).
Abbreviation _generate_id := (LibraryManager._generate_id json_loads).
Abbreviation add_book := (LibraryManager.add_book json_loads json_dumps).
Abbreviation delete_book := (LibraryManager.delete_book json_loads json_dumps).
Abbreviation find_books :=
  (LibraryManager.find_books json_loads str_lower str_isdigit py_int).
Abbreviation contains_ignoring_case := (Spec.contains_ignoring_case str_lower).
Abbreviation find_match := (Spec.find_match str_lower str_isdigit py_int).
Abbreviation readable := (Spec.readable str_isdigit py_int).
Abbreviation change_status := (LibraryManager.change_status json_loads json_dumps).
Abbreviation line_of := (Store.line_of json_dumps).
Abbreviation text_of := (Store.text_of json_dumps).
Abbreviation writes := (Store.writes json_dumps).
Abbreviation holds := (Store.holds json_loads).
Abbreviation distinct_ids := (Store.distinct_ids json_loads).

(** C10. [_generate_id] never runs out of fuel, whatever the backing file.
    On a file that loads as [n] records its loop tests the condition
    [new_id in used_ids] exactly [r] times, [r] being the id it returns, and
    [1 ≤ r ≤ n + 1]: the loop given [r] tests or more returns [r], given
    fewer it is still running. *)
Theorem generate_id_terminates (w : world) :
  (_generate_id w).1 ≠ OutOfFuel
  ∧ ∀ books : list Book.t,
      _load_books w = (Return books, w) →
      ∃ r : Z,
        (1 ≤ r ≤ Z.of_nat (length books) + 1)%Z
        ∧ _generate_id w = (Return r, w)
        ∧ ∀ fuel : nat,
            LibraryManager.while_in fuel (list_to_set (Store.ids books)) 1
            = if decide (r ≤ Z.of_nat fuel)%Z then Return r else OutOfFuel.
Proof.
  assert (∀ books : list Book.t,
      _load_books w = (Return books, w) →
      ∃ r : Z,
        (1 ≤ r ≤ Z.of_nat (length books) + 1)%Z
        ∧ _generate_id w = (Return r, w)
        ∧ ∀ fuel : nat,
            LibraryManager.while_in fuel (list_to_set (Store.ids books)) 1
            = if decide (r ≤ Z.of_nat fuel)%Z then Return r else OutOfFuel) as Hloaded.
  { intros books Hload.
    destruct (IdFacts.smallest_unused_exists (Store.ids books)) as (r & Hr & Hle).
    exists r. unfold Store.ids in Hle. rewrite length_fmap in Hle.
    split; [destruct Hr; lia|]. split.
    - by apply (RunFacts.generate_id_run _ _ books).
    - intros fuel. by apply IdFacts.while_in_smallest. }
  split; [|done].
  pose proof (StoreFacts.load_run json_loads w) as Hload.
  pose proof (LoadFacts.load_returns_or_raises json_loads w) as Hfuel.
  rewrite Hload in Hfuel. simpl in Hfuel.
  destruct (match file w with None => _ | Some _ => _ end) as [books|e|]; [| |done].
  - destruct (Hloaded books Hload) as (r & _ & -> & _). done.
  - unfold LibraryManager._generate_id.
    by rewrite (RunFacts.bind_raise _ _ _ _ _ Hload).
Qed.

(** C1. On a file that loads as [books], [_generate_id] returns the smallest
    positive integer that is the id of none of them, and [add_book] appends
    to the file the line of a record with that id, the given title, author
    and year, and the status AVAILABLE; when the last line of the file was
    closed by a newline, the file then loads as [books] followed by that
    record. *)
Theorem add_book_assigns_smallest_unused_id
    (w : world) (books : list Book.t) (title author : string) (year : Z) :
  Store.codec_laws json_loads json_dumps →
  _load_books w = (Return books, w) →
  ∃ new_id : Z,
    Spec.smallest_unused (Store.ids books) new_id
    ∧ _generate_id w = (Return new_id, w)
    ∧ ∃ w' : world,
        let new_book := Book.Build new_id title author year Book.AVAILABLE in
        add_book title author year w = (Return tt, w')
        ∧ file w' = Some (default "" (file w) +:+ line_of new_book)
        ∧ (Store.terminated w → holds w' (books ++ [new_book])).
Proof.
  intros laws Hload.
  destruct (IdFacts.smallest_unused_exists (Store.ids books)) as (r & Hr & _).
  exists r. split; [done|]. split; [by apply (RunFacts.generate_id_run _ _ books)|].
  eexists. split; [by apply (RunFacts.add_book_run _ _ _ books)|].
  split; [done|]. intros Hterm.
  by apply (StoreFacts.holds_appended json_loads json_dumps laws).
Qed.


(** C2. On a file that loads as [books]: when [int] accepts the keyword
    whenever [isdigit] does, [find_books keyword] returns exactly the records
    of [books], in their order, whose title or author contains the keyword
    as a substring, the case of letters ignored, or whose year is the number
    the keyword denotes when the keyword is numeric; the result is a
    subsequence of [books]. When [isdigit] accepts the keyword and [int]
    refuses it, [find_books keyword] returns nothing: it raises [ValueError]
    as soon as one record has the keyword neither in its title nor in its
    author. The world is as it was. *)
Theorem find_books_exact (w : world) (books : list Book.t) (keyword : string) :
  _load_books w = (Return books, w) →
  (readable keyword →
     ∃ found_books : list Book.t,
       find_books keyword w = (Return found_books, w)
       ∧ Spec.selects (find_match keyword) books found_books
       ∧ found_books `sublist_of` books)
  ∧ (str_isdigit keyword = true → py_int keyword = None →
     ∀ book : Book.t,
       book ∈ books →
       ¬ contains_ignoring_case (Book.title book) keyword →
       ¬ contains_ignoring_case (Book.author book) keyword →
       find_books keyword w = (Raise (ValueError keyword), w)).
Proof.
  intros Hload. rewrite (LoadFacts.find_books_run _ _ _ _ _ _ _ Hload). split.
  - intros Hreadable.
    destruct (LoadFacts.found_books_readable str_lower _ _ keyword books Hreadable)
      as [found_books Hfound].
    exists found_books. rewrite Hfound. split; [done|].
    apply LoadFacts.found_books_returns in Hfound.
    split; [done|by eapply LoadFacts.selects_sublist].
  - intros Hdigit Hint book Hin Htitle Hauthor.
    by rewrite (LoadFacts.found_books_unreadable _ _ _ keyword books book).
Qed.

(** C8, amended. On a file that loads as [books], every record that
    [find_books "1999"] returns is a record of [books] whose year is 1999 or
    whose title or author contains the text 1999. Of the text methods this
    takes that [int] reads the text 1999 as the number 1999 and that
    lowering keeps the digits of a text. *)
Theorem find_1999 (w : world) (books : list Book.t) :
  py_int "1999" = Some 1999%Z →
  Spec.digits_kept str_lower →
  _load_books w = (Return books, w) →
  ∃ found_books : list Book.t,
    find_books "1999" w = (Return found_books, w)
    ∧ ∀ book : Book.t, book ∈ found_books →
        book ∈ books
        ∧ (Book.year book = 1999%Z
           ∨ Spec.contains (Book.title book) "1999"
           ∨ Spec.contains (Book.author book) "1999").
Proof.
  intros Hint Hkept Hload. rewrite (LoadFacts.find_books_run _ _ _ _ _ _ _ Hload).
  destruct (LoadFacts.found_books_readable str_lower str_isdigit py_int "1999" books)
    as [found_books Hfound]; [intros _; by rewrite Hint|].
  exists found_books. rewrite Hfound. split; [done|].
  apply LoadFacts.found_books_returns in Hfound.
  intros book [Hin Hmatch]%(LoadFacts.selects_elem_of _ _ _ _ Hfound).
  split; [done|].
  assert (Spec.numeral "1999") as Hnumeral by (by repeat split).
  destruct Hmatch as [Htitle|[Hauthor|[_ Hyear]]].
  - right. left. by apply (Hkept _ "1999" Hnumeral).
  - right. right. by apply (Hkept _ "1999" Hnumeral).
  - rewrite Hint in Hyear. injection Hyear as <-. auto.
Qed.

(** C4. On a file that loads as [books], loading, saving what was loaded
    and loading again returns [books]: the same records, with the same
    fields, in the same order. *)
Theorem save_load_round_trip (w : world) (books : list Book.t) :
  Store.codec_laws json_loads json_dumps →
  _load_books w = (Return books, w) →
  ∃ w' : world,
    (loaded ← _load_books; _save_books loaded;; _load_books) w = (Return books, w')
    ∧ file w' = Some (text_of books)
    ∧ _load_books w' = (Return books, w').
Proof.
  intros laws Hload. eexists.
  rewrite (RunFacts.bind_run _ _ _ _ _ Hload).
  rewrite (RunFacts.bind_run _ _ _ _ _ (StoreFacts.save_run _ _ _)).
  rewrite (StoreFacts.load_text_of json_loads json_dumps laws).
  split; [done|]. split; [done|].
  by rewrite (StoreFacts.load_text_of json_loads json_dumps laws).
Qed.

(** C5. On a file that loads as [books], [delete_book book_id] leaves a
    file that loads as the records of [books] whose id is not [book_id], in
    their order. When some record has the id, the file is rewritten with one
    line for each record kept; when none has, nothing is written and the one
    thing the operation does is print that the book was not found. *)
Theorem delete_book_filters (w : world) (books : list Book.t) (book_id : Z) :
  Store.codec_laws json_loads json_dumps →
  _load_books w = (Return books, w) →
  let kept := filter (λ book, Book.id book ≠ book_id) books in
  ∃ w' : world,
    delete_book book_id w = (Return tt, w')
    ∧ _load_books w' = (Return kept, w')
    ∧ kept `sublist_of` books
    ∧ (book_id ∈ Store.ids books →
         file w' = Some (text_of kept)
         ∧ trace w' = trace w ++ writes kept ++ [Printed (Store.deleted_ID book_id)])
    ∧ (book_id ∉ Store.ids books →
         file w' = file w
         ∧ trace w' = trace w ++ [Printed (Store.not_found_ID book_id)]).
Proof.
  intros laws Hload kept. eexists.
  split; [by apply RunFacts.delete_book_run|].
  destruct (decide (book_id ∈ Store.ids books)) as [Hin|Hnot].
  - split; [by apply (StoreFacts.load_text_of json_loads json_dumps laws)|].
    split; [apply sublist_filter|]. by split.
  - split.
    + apply RunFacts.load_after. subst kept. rewrite OpFacts.filter_all; [done|].
      apply Forall_forall. intros book Hbook Hid.
      apply Hnot, OpFacts.elem_of_ids. eauto.
    + split; [apply sublist_filter|]. by split.
Qed.

(** C3. On a file that loads as [books]: [change_status] with a status that
    is neither AVAILABLE nor LOANED leaves a file that loads as [books],
    every record with the fields it had; [change_status] with an id that no
    record has prints that the book was not found and writes nothing;
    [change_status] with one of the two statuses and an id that some record
    has gives the first record with that id the new status, its other
    fields kept, prints the change, and rewrites the file, which then loads
    as the records with that one changed. *)
Theorem change_status_cases
    (w : world) (books : list Book.t) (book_id : Z) (status : string) :
  Store.codec_laws json_loads json_dumps →
  _load_books w = (Return books, w) →
  (status ∉ [Book.AVAILABLE; Book.LOANED] →
     ∃ w' : world,
       change_status book_id status w = (Return tt, w')
       ∧ _load_books w' = (Return books, w'))
  ∧ (book_id ∉ Store.ids books →
       change_status book_id status w
       = (Return tt, Store.after w [Printed (Store.not_found_id book_id)]))
  ∧ (∀ (before after : list Book.t) (book : Book.t),
       status ∈ [Book.AVAILABLE; Book.LOANED] →
       books = before ++ book :: after →
       Book.id book = book_id →
       book_id ∉ Store.ids before →
       let book' := Book.Build (Book.id book) (Book.title book) (Book.author book)
                      (Book.year book) status in
       let books' := before ++ book' :: after in
       ∃ w' : world,
         change_status book_id status w = (Return tt, w')
         ∧ file w' = Some (text_of books')
         ∧ trace w' = trace w ++ Printed (Store.status_report book status) :: writes books'
         ∧ _load_books w' = (Return books', w')).
Proof.
  intros laws Hload.
  pose proof (RunFacts.change_status_run json_loads json_dumps w books book_id status Hload)
    as Hrun. cbv zeta in Hrun.
  split; [|split].
  - intros Hinvalid. eexists. split; [exact Hrun|].
    rewrite OpFacts.update_first_invalid by done.
    destruct (Store.first_with books book_id).
    + by apply (StoreFacts.load_text_of json_loads json_dumps laws).
    + by apply RunFacts.load_after.
  - intros Hmissing. by rewrite Hrun, OpFacts.first_with_missing.
  - intros before after book Hvalid -> <- Hbefore book' books'.
    destruct (OpFacts.update_first_split before after book status Hbefore)
      as [Hupdate Hfirst].
    rewrite Hupdate, Hfirst in Hrun.
    unfold Store.with_status in Hrun. rewrite bool_decide_eq_true_2 in Hrun by done.
    eexists. split; [exact Hrun|]. split; [done|]. split; [done|].
    by apply (StoreFacts.load_text_of json_loads json_dumps laws).
Qed.

(** C6, amended. When the backing file loads as records no two of which
    share an id, [delete_book] and [change_status] return and leave a file
    that loads as such records; so does [add_book] when the backing file is
    absent or its last line is closed by a newline. Each of the three
    leaves a file that is absent or whose last line is closed by a newline
    when it found one. *)
Theorem operations_keep_ids_distinct (w : world) :
  Store.codec_laws json_loads json_dumps →
  distinct_ids w →
  (∀ (title author : string) (year : Z),
     Store.terminated w →
     ∃ w' : world,
       add_book title author year w = (Return tt, w')
       ∧ distinct_ids w' ∧ Store.terminated w')
  ∧ (∀ book_id : Z,
       ∃ w' : world,
         delete_book book_id w = (Return tt, w')
         ∧ distinct_ids w' ∧ (Store.terminated w → Store.terminated w'))
  ∧ (∀ (book_id : Z) (status : string),
       ∃ w' : world,
         change_status book_id status w = (Return tt, w')
         ∧ distinct_ids w' ∧ (Store.terminated w → Store.terminated w')).
Proof.
  intros laws Hdistinct. split; [|split].
  - intros title author year Hterm. by apply RunFacts.add_book_keeps.
  - intros book_id. by apply RunFacts.delete_book_keeps.
  - intros book_id status. by apply RunFacts.change_status_keeps.
Qed.

(** C9, amended. On a file that loads as [books], [delete_book book_id]
    followed by [find_books keyword], for a keyword that [int] accepts
    whenever [isdigit] does, returns records none of which has the id
    [book_id]: the records that match the keyword among those of [books]
    with another id. *)
Theorem delete_then_find
    (w : world) (books : list Book.t) (book_id : Z) (keyword : string) :
  Store.codec_laws json_loads json_dumps →
  _load_books w = (Return books, w) →
  readable keyword →
  ∃ (w' : world) (found_books : list Book.t),
    (delete_book book_id;; find_books keyword) w = (Return found_books, w')
    ∧ Spec.selects (find_match keyword)
        (filter (λ book, Book.id book ≠ book_id) books) found_books
    ∧ ∀ book : Book.t, book ∈ found_books → Book.id book ≠ book_id.
Proof.
  intros laws Hload Hreadable.
  set (kept := filter (λ book, Book.id book ≠ book_id) books).
  destruct (LoadFacts.found_books_readable str_lower _ _ keyword kept Hreadable)
    as [found_books Hfound].
  eexists _, found_books.
  rewrite (RunFacts.bind_run _ _ _ _ _
             (RunFacts.delete_book_run json_loads json_dumps _ _ book_id Hload)).
  pose proof (LoadFacts.found_books_returns _ _ _ _ _ _ Hfound) as Hselects.
  split; [|split; [done|]].
  - erewrite LoadFacts.find_books_run; [by rewrite Hfound|].
    destruct (decide (book_id ∈ Store.ids books)) as [Hin|Hnot].
    + by apply (StoreFacts.load_text_of json_loads json_dumps laws).
    + apply RunFacts.load_after. subst kept. rewrite OpFacts.filter_all; [done|].
      apply Forall_forall. intros book Hbook Hid.
      apply Hnot, OpFacts.elem_of_ids. eauto.
  - intros book [[? _]%list_elem_of_filter _]%(LoadFacts.selects_elem_of _ _ _ _ Hselects).
    done.
Qed.

(** The invariant of the data model: from a start with no backing file,
    whatever calls that write are made, each returns and the file then loads
    as records no two of which share an id. *)
Corollary ids_distinct_at_all_times (w : world) (calls : list Session.call) :
  Store.codec_laws json_loads json_dumps →
  file w = None →
  ∃ w' : world,
    Session.run_all json_loads json_dumps calls w = (Return tt, w')
    ∧ distinct_ids w'.
Proof.
  intros laws Hfile.
  destruct (RunFacts.session_keeps json_loads json_dumps calls w laws)
    as (w' & Hrun & Hdistinct & _).
  - exists []. split; [by apply StoreFacts.load_absent|apply NoDup_nil_2].
  - unfold Store.terminated. by rewrite Hfile.
  - by exists w'.
Qed.

End Manager.

(** ** The properties at work, with the codec of [Codec] *)

Abbreviation _load_books := (LibraryManager._load_books Codec.loads).
Abbreviation _save_books := (LibraryManager._save_books Codec.dumps).
Abbreviation _generate_id := (LibraryManager._generate_id Codec.loads).
Abbreviation add_book := (LibraryManager.add_book Codec.loads Codec.dumps).
Abbreviation delete_book := (LibraryManager.delete_book Codec.loads Codec.dumps).
Abbreviation find_books :=
  (LibraryManager.find_books Codec.loads Sample.lower Sample.isdigit Sample.int).
Abbreviation contains_ignoring_case := (Spec.contains_ignoring_case Sample.lower).
Abbreviation find_match := (Spec.find_match Sample.lower Sample.isdigit Sample.int).
Abbreviation change_status := (LibraryManager.change_status Codec.loads Codec.dumps).

(** Ids 1 and 3 are taken: the loop stops at 2. *)
Lemma generate_id_terminates_witness :
  let books := [Shelf.dune; Shelf.solaris] in
  ∃ r : Z,
    (1 ≤ r ≤ Z.of_nat (length books) + 1)%Z
    ∧ _generate_id (Shelf.holding books) = (Return r, Shelf.holding books)
    ∧ ∀ fuel : nat,
        LibraryManager.while_in fuel (list_to_set (Store.ids books)) 1
        = if decide (r ≤ Z.of_nat fuel)%Z then Return r else OutOfFuel.
Proof.
  intros books.
  apply (proj2 (generate_id_terminates Codec.loads (Shelf.holding books))).
  vm_compute. reflexivity.
Defined.

Lemma add_book_assigns_smallest_unused_id_witness :
  let books := [Shelf.dune; Shelf.solaris] in
  ∃ (new_id : Z) (w' : world),
    Spec.smallest_unused (Store.ids books) new_id
    ∧ add_book "Ubik" "Dick" 1969 (Shelf.holding books) = (Return tt, w')
    ∧ Store.holds Codec.loads w'
        (books ++ [Book.Build new_id "Ubik" "Dick" 1969 Book.AVAILABLE]).
Proof.
  intros books.
  destruct (add_book_assigns_smallest_unused_id Codec.loads Codec.dumps
              (Shelf.holding books) books "Ubik" "Dick" 1969 CodecFacts.laws)
    as (new_id & Hsmallest & _ & w' & Hadd & _ & Hholds).
  - vm_compute. reflexivity.
  - exists new_id, w'. split; [exact Hsmallest|]. split; [exact Hadd|].
    apply Hholds. vm_compute. reflexivity.
Defined.


(** The keyword HERBERT finds the author Herbert. The keyword of one
    superscript two, which [isdigit] accepts and [int] refuses, ends the
    search at the first record. *)
Lemma find_books_exact_witness :
  let books := [Shelf.dune; Shelf.fahrenheit; Shelf.solaris] in
  let w := Shelf.holding books in
  (∃ found_books : list Book.t,
     find_books "HERBERT" w = (Return found_books, w)
     ∧ Spec.selects (find_match "HERBERT") books found_books
     ∧ found_books `sublist_of` books)
  ∧ find_books "HERBERT" w = (Return [Shelf.dune], w)
  ∧ find_books "²" w = (Raise (ValueError "²"), w).
Proof.
  intros books w.
  assert (_load_books w = (Return books, w)) as Hload by (vm_compute; reflexivity).
  destruct (find_books_exact Codec.loads Sample.lower Sample.isdigit Sample.int
              w books "HERBERT" Hload) as [Hreturns _].
  destruct (find_books_exact Codec.loads Sample.lower Sample.isdigit Sample.int
              w books "²" Hload) as [_ Hraises].
  split; [|split].
  - apply Hreturns. intros H. vm_compute in H. discriminate H.
  - vm_compute. reflexivity.
  - apply (Hraises eq_refl eq_refl Shelf.dune).
    + apply list_elem_of_here.
    + intros H. apply LoadFacts.contains_ignoring_case_iff in H. vm_compute in H.
      discriminate H.
    + intros H. apply LoadFacts.contains_ignoring_case_iff in H. vm_compute in H.
      discriminate H.
Defined.

(** C8, as stated, fails: the search for 1999 returns a record of 1982 whose
    title is 1999. *)
Lemma find_1999_returns_another_year :
  find_books "1999" (Shelf.holding [Shelf.album; Shelf.dune])
  = (Return [Shelf.album], Shelf.holding [Shelf.album; Shelf.dune])
  ∧ Book.year Shelf.album = 1982%Z.
Proof. split; vm_compute; reflexivity. Qed.

Lemma find_1999_witness :
  let books := [Shelf.album; Shelf.dune] in
  ∃ found_books : list Book.t,
    find_books "1999" (Shelf.holding books) = (Return found_books, Shelf.holding books)
    ∧ ∀ book : Book.t, book ∈ found_books →
        book ∈ books
        ∧ (Book.year book = 1999%Z
           ∨ Spec.contains (Book.title book) "1999"
           ∨ Spec.contains (Book.author book) "1999").
Proof.
  intros books.
  apply (find_1999 Codec.loads Sample.lower Sample.isdigit Sample.int
           (Shelf.holding books) books).
  - reflexivity.
  - exact SampleFacts.digits_kept.
  - vm_compute. reflexivity.
Defined.

Lemma save_load_round_trip_witness :
  let books := [Shelf.dune; Shelf.fahrenheit] in
  ∃ w' : world,
    (loaded ← _load_books; _save_books loaded;; _load_books) (Shelf.holding books)
    = (Return books, w')
    ∧ file w' = Some (Store.text_of Codec.dumps books)
    ∧ _load_books w' = (Return books, w').
Proof.
  intros books.
  apply (save_load_round_trip Codec.loads Codec.dumps (Shelf.holding books) books
           CodecFacts.laws).
  vm_compute. reflexivity.
Defined.

(** The example of the specification: with no backing file, adding Dune
    gives it the id 1 and the status AVAILABLE; after deleting the id 1
    there is nothing to list. *)
Example dune_added_then_deleted :
  ((add_book "Dune" "Herrington" 1965;; _load_books) Shelf.no_file).1
  = Return [Book.Build 1 "Dune" "Herrington" 1965 Book.AVAILABLE]
  ∧ ((add_book "Dune" "Herrington" 1965;; delete_book 1;; _load_books)
       Shelf.no_file).1
    = Return []
  ∧ (LibraryManager.display_books Codec.loads
       {| file := ((add_book "Dune" "Herrington" 1965;; delete_book 1)
                     Shelf.no_file).2.(file);
          trace := [] |}).2.(trace)
    = [Printed "В библиотеке пока нет книг"].
Proof. repeat split; vm_compute; reflexivity. Qed.

Lemma delete_book_filters_witness :
  let books := [Shelf.dune; Shelf.fahrenheit; Shelf.solaris] in
  let kept := filter (λ book, Book.id book ≠ 2%Z) books in
  ∃ w' : world,
    delete_book 2 (Shelf.holding books) = (Return tt, w')
    ∧ _load_books w' = (Return kept, w')
    ∧ kept `sublist_of` books
    ∧ file w' = Some (Store.text_of Codec.dumps kept)
    ∧ trace w' = Store.writes Codec.dumps kept ++ [Printed (Store.deleted_ID 2)].
Proof.
  intros books kept.
  destruct (delete_book_filters Codec.loads Codec.dumps (Shelf.holding books) books 2
              CodecFacts.laws)
    as (w' & Hdelete & Hload & Hsub & Hin & _).
  - vm_compute. reflexivity.
  - exists w'. split; [exact Hdelete|]. split; [exact Hload|]. split; [exact Hsub|].
    apply Hin. apply list_elem_of_further, list_elem_of_here.
Defined.

Lemma change_status_cases_witness :
  let books := [Shelf.dune; Shelf.fahrenheit] in
  let w := Shelf.holding books in
  let books' := [Shelf.dune;
                 Book.Build 2 "Fahrenheit 451" "Bradbury" 1953 "выдана"] in
  (∃ w' : world,
     change_status 2 "lost" w = (Return tt, w') ∧ _load_books w' = (Return books, w'))
  ∧ change_status 7 Book.LOANED w
    = (Return tt, Store.after w [Printed (Store.not_found_id 7)])
  ∧ (∃ w' : world,
       change_status 2 Book.LOANED w = (Return tt, w')
       ∧ file w' = Some (Store.text_of Codec.dumps books')
       ∧ trace w' = trace w ++ Printed (Store.status_report Shelf.fahrenheit Book.LOANED)
                              :: Store.writes Codec.dumps books'
       ∧ _load_books w' = (Return books', w')).
Proof.
  intros books w books'.
  assert (_load_books w = (Return books, w)) as Hload by (vm_compute; reflexivity).
  split; [|split].
  - apply (change_status_cases Codec.loads Codec.dumps w books 2 "lost"
             CodecFacts.laws Hload).
    apply (bool_decide_unpack _). vm_compute. exact I.
  - apply (change_status_cases Codec.loads Codec.dumps w books 7 Book.LOANED
             CodecFacts.laws Hload).
    apply (bool_decide_unpack _). vm_compute. exact I.
  - apply (proj2 (proj2 (change_status_cases Codec.loads Codec.dumps w books 2
                           Book.LOANED CodecFacts.laws Hload))
             [Shelf.dune] [] Shelf.fahrenheit).
    + apply list_elem_of_further, list_elem_of_here.
    + reflexivity.
    + reflexivity.
    + apply (bool_decide_unpack _). vm_compute. exact I.
Defined.

(** C6, as stated, fails: the file loads as one record, [add_book] returns,
    and the file it leaves does not load, the new line having been written
    after the last one with no newline between them. *)
Lemma add_book_after_unterminated_line :
  _load_books Shelf.unterminated = (Return [Shelf.dune], Shelf.unterminated)
  ∧ (add_book "Ubik" "Dick" 1969 Shelf.unterminated).1 = Return tt
  ∧ (_load_books (add_book "Ubik" "Dick" 1969 Shelf.unterminated).2).1
    = Raise (JSONDecodeError
               (Codec.dumps (Book.to_dict Shelf.dune)
                +:+ Store.line_of Codec.dumps
                      (Book.Build 2 "Ubik" "Dick" 1969 Book.AVAILABLE))).
Proof. repeat split; vm_compute; reflexivity. Qed.

Lemma operations_keep_ids_distinct_witness :
  let w := Shelf.holding [Shelf.dune; Shelf.fahrenheit] in
  (∀ (title author : string) (year : Z),
     ∃ w' : world,
       add_book title author year w = (Return tt, w')
       ∧ Store.distinct_ids Codec.loads w' ∧ Store.terminated w')
  ∧ (∀ book_id : Z,
       ∃ w' : world,
         delete_book book_id w = (Return tt, w')
         ∧ Store.distinct_ids Codec.loads w' ∧ Store.terminated w')
  ∧ (∀ (book_id : Z) (status : string),
       ∃ w' : world,
         change_status book_id status w = (Return tt, w')
         ∧ Store.distinct_ids Codec.loads w' ∧ Store.terminated w').
Proof.
  intros w.
  assert (Store.terminated w) as Hterm by (vm_compute; reflexivity).
  destruct (operations_keep_ids_distinct Codec.loads Codec.dumps w CodecFacts.laws)
    as (Hadd & Hdelete & Hchange).
  - exists [Shelf.dune; Shelf.fahrenheit]. split.
    + vm_compute. reflexivity.
    + apply (bool_decide_unpack _). vm_compute. exact I.
  - split; [|split].
    + intros title author year. exact (Hadd title author year Hterm).
    + intros book_id. destruct (Hdelete book_id) as (w' & H1 & H2 & H3).
      exists w'. split; [exact H1|]. split; [exact H2|exact (H3 Hterm)].
    + intros book_id status.
      destruct (Hchange book_id status) as (w' & H1 & H2 & H3).
      exists w'. split; [exact H1|]. split; [exact H2|exact (H3 Hterm)].
Defined.

(** C9, as stated, fails: after the record with id 1 is deleted, the search
    for the keyword 1 returns the record whose title has a 1 in it. *)
Lemma delete_then_find_returns_a_record :
  ((delete_book 1;; find_books (Str.of_int 1))
     (Shelf.holding [Shelf.dune; Shelf.fahrenheit])).1
  = Return [Shelf.fahrenheit].
Proof. vm_compute. reflexivity. Qed.

Lemma delete_then_find_witness :
  let books := [Shelf.dune; Shelf.fahrenheit] in
  ∃ (w' : world) (found_books : list Book.t),
    (delete_book 1;; find_books (Str.of_int 1)) (Shelf.holding books)
    = (Return found_books, w')
    ∧ Spec.selects (find_match (Str.of_int 1))
        (filter (λ book, Book.id book ≠ 1%Z) books) found_books
    ∧ ∀ book : Book.t, book ∈ found_books → Book.id book ≠ 1%Z.
Proof.
  intros books.
  apply (delete_then_find Codec.loads Codec.dumps Sample.lower Sample.isdigit
           Sample.int (Shelf.holding books) books 1 (Str.of_int 1) CodecFacts.laws).
  - vm_compute. reflexivity.
  - intros _. vm_compute. eexists. reflexivity.
Defined.

End Properties.

(** ** The menu loop *)

Module MainFacts.

(** Whether a file is good is a matter of its text. *)
Lemma good_world_file (json_loads : string → option json) (w w' : world) :
  file w = file w' →
  Console.good_world json_loads w → Console.good_world json_loads w'.
Proof.
  intros Hfile [(books & Hload & Hdistinct) Hterm]. split.
  - exists books. split; [|done].
    rewrite StoreFacts.load_run in Hload |- *. rewrite <- Hfile.
    injection Hload as ->. done.
  - unfold Store.terminated in *. by rewrite <- Hfile.
Qed.

Lemma for_display_run (books : list Book.t) (w : world) :
  LibraryManager.for_display books w
  = (Return tt, Store.after w (Printed ∘ LibraryManager.display_line <$> books)).
Proof.
  revert w. induction books as [|book l IH]; intros w.
  - by rewrite OpFacts.after_nil.
  - simpl. unfold mbind, M_bind, bind, print, log. rewrite IH.
    unfold Store.after. simpl. by rewrite <- app_assoc.
Qed.

(** *** The operations of the manager are tame *)

Section Operations.

Variable json_loads : string → option json.
Variable json_dumps : json → string.
Variable str_lower : string → string.
Variable str_isdigit : string → bool.
Variable py_int : string → option Z.
Variable inv : world → Prop.

Abbreviation _load_books := (LibraryManager._load_books json_loads).
Abbreviation add_book := (LibraryManager.add_book json_loads json_dumps).
Abbreviation delete_book := (LibraryManager.delete_book json_loads json_dumps).
Abbreviation change_status := (LibraryManager.change_status json_loads json_dumps).
Abbreviation find_books :=
  (LibraryManager.find_books json_loads str_lower str_isdigit py_int).
Abbreviation display_books := (LibraryManager.display_books json_loads).

(** An operation that raises what loading raises, touching nothing, and
    returns when loading returns, is tame when it keeps [inv] then. *)
Lemma tame_load_case {A} (m : M A) :
  (∀ w e, _load_books w = (Raise e, w) → m w = (Raise e, w)) →
  (∀ w books, _load_books w = (Return books, w) →
     ∃ a w', m w = (Return a, w') ∧ (inv w → inv w')) →
  Console.tame_world inv m.
Proof.
  intros Hraise Hreturn w.
  pose proof (StoreFacts.load_run json_loads w) as Hload.
  pose proof (LoadFacts.load_returns_or_raises json_loads w) as Hfuel.
  rewrite Hload in Hfuel. simpl in Hfuel.
  destruct (match file w with None => _ | Some _ => _ end) as [books|e|]; [| |done].
  - destruct (Hreturn w books Hload) as (a & w' & -> & Hgood). by split.
  - rewrite (Hraise w e Hload). by split.
Qed.

Lemma add_book_raise (w : world) (e : exn) (title author : string) (year : Z) :
  _load_books w = (Raise e, w) → add_book title author year w = (Raise e, w).
Proof.
  intros Hload. unfold LibraryManager.add_book, LibraryManager._generate_id.
  by rewrite (RunFacts.bind_raise _ _ _ _ _
                (RunFacts.bind_raise _ _ _ _ _ Hload)).
Qed.

Lemma delete_book_raise (w : world) (e : exn) (book_id : Z) :
  _load_books w = (Raise e, w) → delete_book book_id w = (Raise e, w).
Proof.
  intros Hload. unfold LibraryManager.delete_book.
  by rewrite (RunFacts.bind_raise _ _ _ _ _ Hload).
Qed.

Lemma change_status_raise (w : world) (e : exn) (book_id : Z) (status : string) :
  _load_books w = (Raise e, w) → change_status book_id status w = (Raise e, w).
Proof.
  intros Hload. unfold LibraryManager.change_status.
  by rewrite (RunFacts.bind_raise _ _ _ _ _ Hload).
Qed.

Lemma find_books_raise (w : world) (e : exn) (keyword : string) :
  _load_books w = (Raise e, w) → find_books keyword w = (Raise e, w).
Proof.
  intros Hload. unfold LibraryManager.find_books.
  by rewrite (RunFacts.bind_raise _ _ _ _ _ Hload).
Qed.

Lemma display_books_raise (w : world) (e : exn) :
  _load_books w = (Raise e, w) → display_books w = (Raise e, w).
Proof.
  intros Hload. unfold LibraryManager.display_books.
  by rewrite (RunFacts.bind_raise _ _ _ _ _ Hload).
Qed.

Hypothesis inv_file : ∀ w w' : world, file w = file w' → inv w → inv w'.

Lemma tame_find_books (keyword : string) :
  Console.tame_world inv (find_books keyword).
Proof.
  intros w. split; [apply LoadFacts.find_books_ends|].
  by rewrite LoadFacts.find_books_world.
Qed.

Lemma tame_display_books : Console.tame_world inv display_books.
Proof.
  apply tame_load_case; [apply display_books_raise|].
  intros w books Hload. unfold LibraryManager.display_books.
  rewrite (RunFacts.bind_run _ _ _ _ _ Hload).
  destruct books as [|book l].
  - eexists _, _. split; [done|]. by apply inv_file.
  - rewrite for_display_run. eexists _, _. split; [done|]. by apply inv_file.
Qed.

End Operations.

(** Every operation returns or raises. *)
Lemma operations_end (json_loads : string → option json) (json_dumps : json → string) :
  (∀ title author year,
     Console.tame_world (λ _, True)
       (LibraryManager.add_book json_loads json_dumps title author year))
  ∧ (∀ book_id,
       Console.tame_world (λ _, True)
         (LibraryManager.delete_book json_loads json_dumps book_id))
  ∧ (∀ book_id status,
       Console.tame_world (λ _, True)
         (LibraryManager.change_status json_loads json_dumps book_id status)).
Proof.
  split; [|split]; intros; apply (tame_load_case json_loads); intros.
  - by apply add_book_raise.
  - destruct (IdFacts.smallest_unused_exists (Store.ids books)) as (r & Hr & _).
    eexists _, _. split; [by apply (RunFacts.add_book_run _ _ _ books r)|done].
  - by apply delete_book_raise.
  - eexists _, _. split; [by apply RunFacts.delete_book_run|done].
  - by apply change_status_raise.
  - eexists _, _. split; [by apply RunFacts.change_status_run|done].
Qed.

(** Every operation keeps a good file good. *)
Lemma operations_keep_good (json_loads : string → option json)
    (json_dumps : json → string) :
  Store.codec_laws json_loads json_dumps →
  (∀ title author year,
     Console.tame_world (Console.good_world json_loads)
       (LibraryManager.add_book json_loads json_dumps title author year))
  ∧ (∀ book_id,
       Console.tame_world (Console.good_world json_loads)
         (LibraryManager.delete_book json_loads json_dumps book_id))
  ∧ (∀ book_id status,
       Console.tame_world (Console.good_world json_loads)
         (LibraryManager.change_status json_loads json_dumps book_id status)).
Proof.
  intros laws.
  split; [|split]; intros; apply (tame_load_case json_loads); intros.
  - by apply add_book_raise.
  - destruct (IdFacts.smallest_unused_exists (Store.ids books)) as (r & Hr & _).
    eexists _, _. split; [by apply (RunFacts.add_book_run _ _ _ books r)|].
    intros [Hdistinct Hterm].
    destruct (RunFacts.add_book_keeps json_loads json_dumps w title author year
                laws Hdistinct Hterm) as (w' & Hadd & Hgood).
    rewrite (RunFacts.add_book_run _ _ _ books r _ _ _ H Hr) in Hadd.
    injection Hadd as <-. done.
  - by apply delete_book_raise.
  - eexists _, _. split; [by apply RunFacts.delete_book_run|].
    intros [Hdistinct Hterm].
    destruct (RunFacts.delete_book_keeps json_loads json_dumps w book_id
                laws Hdistinct) as (w' & Hdelete & Hgood & Hterm').
    rewrite (RunFacts.delete_book_run _ _ _ _ _ H) in Hdelete.
    injection Hdelete as <-. split; auto.
  - by apply change_status_raise.
  - eexists _, _. split; [by apply RunFacts.change_status_run|].
    intros [Hdistinct Hterm].
    destruct (RunFacts.change_status_keeps json_loads json_dumps w book_id status
                laws Hdistinct) as (w' & Hchange & Hgood & Hterm').
    rewrite (RunFacts.change_status_run _ _ _ _ _ _ H) in Hchange.
    injection Hchange as <-. split; auto.
Qed.

(** *** The loop *)

Section Main.

Variable json_loads : string → option json.
Variable json_dumps : json → string.
Variable str_lower : string → string.
Variable str_isdigit : string → bool.
Variable py_int : string → option Z.
Variable inv : world → Prop.

Hypothesis inv_file : ∀ w w' : world, file w = file w' → inv w → inv w'.
Hypothesis inv_operations :
  (∀ title author year,
     Console.tame_world inv
       (LibraryManager.add_book json_loads json_dumps title author year))
  ∧ (∀ book_id,
       Console.tame_world inv
         (LibraryManager.delete_book json_loads json_dumps book_id))
  ∧ (∀ book_id status,
       Console.tame_world inv
         (LibraryManager.change_status json_loads json_dumps book_id status)).

Abbreviation tame := (Console.tame inv).
Abbreviation branch :=
  (Console.branch json_loads json_dumps str_lower str_isdigit py_int).
Abbreviation loop := (Console.loop json_loads json_dumps str_lower str_isdigit py_int).
Abbreviation main := (Console.main json_loads json_dumps str_lower str_isdigit py_int).

Lemma tame_ret {A} (a : A) : tame (mret a).
Proof. intros c. split; [done|]. split; done. Qed.

Lemma tame_bind {A B} (m : Console.C A) (k : A → Console.C B) :
  tame m → (∀ a, tame (k a)) → tame (m ≫= k).
Proof.
  intros Hm Hk c. specialize (Hm c). unfold mbind, Console.C_bind.
  destruct (m c) as [[a|e|] c1]; simpl in *; [|by destruct Hm as (? & ? & ?)..].
  destruct Hm as (Hlen & _ & Hgood). destruct (Hk a c1) as (Hlen' & Hrun & Hgood').
  split; [lia|]. split; [done|auto].
Qed.

Lemma tame_input (prompt : string) : tame (Console.input prompt).
Proof.
  intros c. unfold Console.input.
  destruct c as [d [|line rest] l]; simpl; (split; [lia|]; split; [done|]);
    unfold Console.world_of; simpl; done.
Qed.

Lemma tame_int (text : string) : tame (Console.int py_int text).
Proof.
  intros c. unfold Console.int.
  destruct (py_int text); simpl; (split; [done|]; split; done).
Qed.

Lemma tame_call {A} (m : M A) : Console.tame_world inv m → tame (Console.call m).
Proof.
  intros Hm c. destruct (Hm (Console.world_of c)) as [Hfuel Hgood].
  unfold Console.call.
  destruct (m (Console.world_of c)) as [[a|e|] w'] eqn:Hrun; simpl in *;
    try (by destruct Hfuel); (split; [lia|]; split; [done|]); intros Hc;
    (apply (inv_file w'); [done|by apply Hgood]).
Qed.

Lemma tame_print (message : string) : tame (Console.call (print message)).
Proof. apply tame_call. intros w. split; [done|]. by apply inv_file. Qed.

Lemma tame_for_found (found_books : list Book.t) : tame (Console.for_found found_books).
Proof.
  induction found_books as [|book l IH]; [apply tame_ret|].
  simpl. apply tame_bind; [apply tame_print|done].
Qed.

Lemma tame_menu : tame Console.menu.
Proof.
  unfold Console.menu. repeat (apply tame_bind; [apply tame_print|intros _]).
  apply tame_print.
Qed.

Lemma tame_branch (choice : string) : tame (branch choice).
Proof.
  destruct inv_operations as (Hadd & Hdelete & Hchange).
  unfold Console.branch.
  repeat case_match;
    repeat first
      [ apply tame_ret | apply tame_input | apply tame_int | apply tame_print
      | apply tame_for_found
      | apply tame_call; first [ apply Hadd | apply Hdelete | apply Hchange
                               | by apply tame_find_books
                               | by apply tame_display_books ]
      | apply tame_bind; [|intros ?]
      | case_match ].
Qed.

Abbreviation turn := (Console.turn json_loads json_dumps str_lower str_isdigit py_int).

Lemma menu_run (c : Console.t) :
  Console.menu c
  = (Console.Done tt,
     {| Console.disk := Console.disk c; Console.stdin := Console.stdin c;
        Console.log := Console.log c ++ Console.menu_log |}).
Proof.
  destruct c as [d i l]. unfold Console.menu, mbind, Console.C_bind, Console.call.
  simpl. by rewrite <- !app_assoc.
Qed.

(** A turn with a line to read is the branch for that line. *)
Lemma turn_run (c : Console.t) (choice : string) (rest : list string) :
  Console.stdin c = choice :: rest →
  turn c = branch choice (Console.chosen c choice rest).
Proof.
  intros Hstdin. unfold Console.turn, mbind, Console.C_bind. rewrite menu_run.
  unfold Console.input. simpl. rewrite Hstdin. unfold Console.chosen.
  by rewrite <- app_assoc.
Qed.

Lemma turn_eof (c : Console.t) :
  Console.stdin c = [] →
  turn c
  = (Console.Crashed Console.EOFError,
     {| Console.disk := Console.disk c; Console.stdin := [];
        Console.log := Console.log c ++ Console.menu_log
                       ++ [Console.Asked "Выберите действие: " None] |}).
Proof.
  intros Hstdin. unfold Console.turn, mbind, Console.C_bind. rewrite menu_run.
  unfold Console.input. simpl. rewrite Hstdin. by rewrite <- app_assoc.
Qed.

Lemma loop_turn (fuel : nat) (c : Console.t) :
  loop (S fuel) c
  = (turn ≫= λ stop : bool, if stop then mret tt else loop fuel) c.
Proof.
  simpl. unfold Console.turn, mbind, Console.C_bind.
  destruct (Console.menu c) as [[[]| |] c1]; [|done..].
  destruct (Console.input _ c1) as [[choice| |] c2]; done.
Qed.

(** A turn that does not crash has read a line. *)
Lemma turn_reads (c : Console.t) (stop : bool) (c' : Console.t) :
  turn c = (Console.Done stop, c') →
  length (Console.stdin c') < length (Console.stdin c).
Proof.
  destruct (Console.stdin c) as [|choice rest] eqn:Hstdin.
  - by rewrite (turn_eof c Hstdin).
  - rewrite (turn_run c choice rest Hstdin). intros Hbranch.
    destruct (tame_branch choice (Console.chosen c choice rest)) as (Hlen & _).
    rewrite Hbranch in Hlen. simpl in *. lia.
Qed.

Lemma tame_turn : tame turn.
Proof.
  unfold Console.turn. apply tame_bind; [apply tame_menu|intros _].
  apply tame_bind; [apply tame_input|intros choice]. apply tame_branch.
Qed.

(** With more turns allowed than there are lines to read, the loop ends,
    and keeps a good file good. *)
Lemma loop_ends (fuel : nat) (c : Console.t) :
  length (Console.stdin c) < fuel →
  (loop fuel c).1 ≠ Console.Running
  ∧ (inv (Console.world_of c) → inv (Console.world_of (loop fuel c).2)).
Proof.
  revert c. induction fuel as [|fuel IH]; intros c Hfuel; [lia|].
  rewrite loop_turn. unfold mbind, Console.C_bind.
  destruct (tame_turn c) as (_ & Hrun & Hgood).
  destruct (turn c) as [[stop| |] c1] eqn:Hturn; simpl in *; [|done..].
  destruct stop; [done|].
  apply turn_reads in Hturn. destruct (IH c1) as [Hrun1 Hgood1]; [lia|].
  split; [done|auto].
Qed.

(** Allowing still more turns changes nothing. *)
Lemma loop_enough (fuel fuel' : nat) (c : Console.t) :
  length (Console.stdin c) < fuel → fuel ≤ fuel' → loop fuel' c = loop fuel c.
Proof.
  revert fuel' c. induction fuel as [|fuel IH]; intros fuel' c Hfuel Hle; [lia|].
  destruct fuel' as [|fuel']; [lia|].
  rewrite !loop_turn. unfold mbind, Console.C_bind.
  destruct (turn c) as [[stop| |] c1] eqn:Hturn; [|done..].
  destruct stop; [done|].
  apply turn_reads in Hturn. apply IH; lia.
Qed.

Lemma main_loop (fuel : nat) (c : Console.t) :
  length (Console.stdin c) < fuel → loop fuel c = main c.
Proof. intros Hfuel. unfold Console.main. apply loop_enough; lia. Qed.

(** [main] after a turn that does not leave the loop. *)
Lemma main_turn (c c' : Console.t) :
  turn c = (Console.Done false, c') → main c = main c'.
Proof.
  intros Hturn. unfold Console.main at 1. rewrite loop_turn.
  unfold mbind, Console.C_bind. rewrite Hturn.
  apply main_loop. apply turn_reads in Hturn. lia.
Qed.

Lemma main_stop (c c' : Console.t) :
  turn c = (Console.Done true, c') → main c = (Console.Done tt, c').
Proof.
  intros Hturn. unfold Console.main. rewrite loop_turn.
  unfold mbind, Console.C_bind. by rewrite Hturn.
Qed.

Lemma main_crash (c c' : Console.t) (e : Console.crash) :
  turn c = (Console.Crashed e, c') → main c = (Console.Crashed e, c').
Proof.
  intros Hturn. unfold Console.main. rewrite loop_turn.
  unfold mbind, Console.C_bind. by rewrite Hturn.
Qed.

End Main.

End MainFacts.

(** * More behaviour of the code *)

Module Behaviour.

(** ** The [Book] dataclass *)

(** X1. [from_dict] gives back the book [to_dict] was made from. *)
Theorem from_dict_inverts_to_dict (book : Book.t) :
  Book.from_dict (Book.to_dict book) = Return book.
Proof. by destruct book. Qed.

(** X2. [from_dict] on a value that is no dictionary raises [TypeError]; on a
    dictionary it raises [KeyError] for the first of the keys id, title,
    author, year, status that the dictionary lacks, whatever the values of
    the keys it has. *)
Theorem from_dict_errors :
  (∀ data : json,
     (∀ members, data ≠ JDict members) → Book.from_dict data = Raise TypeError)
  ∧ (∀ (members : list (string * json)) (before after : list string) (key : string),
       Fields.keys = before ++ key :: after →
       (∀ k, k ∈ before → is_Some (dict_get members k)) →
       dict_get members key = None →
       Book.from_dict (JDict members) = Raise (KeyError key)).
Proof.
  split.
  - intros data Hdata. destruct data; try done. by destruct (Hdata members).
  - intros members before after key Hkeys Hbefore Hkey.
    unfold Book.from_dict, Book.subscript.
    assert (∀ k, k ∈ before → ∃ v, dict_get members k = Some v) as Hsome.
    { intros k Hk. destruct (Hbefore k Hk) as [v Hv]. by exists v. }
    unfold Fields.keys in Hkeys.
    repeat (destruct before as [|? before];
            [injection Hkeys as <- _; rewrite Hkey; done
            |injection Hkeys as <- Hkeys;
             destruct (Hsome _ (list_elem_of_here _ _)) as [? ->]; simpl;
             specialize (λ k Hk, Hsome k (list_elem_of_further _ _ _ Hk))]).
    by destruct before.
Qed.

Lemma from_dict_errors_witness :
  Book.from_dict (JList [JInt 1]) = Raise TypeError
  ∧ Book.from_dict (JDict [("title", JStr "Dune"); ("id", JStr "one")])
    = Raise (KeyError "author").
Proof.
  destruct from_dict_errors as [Hother Hdict]. split.
  - apply Hother. intros members. discriminate.
  - apply (Hdict _ ["id"; "title"] ["year"; "status"]).
    + reflexivity.
    + intros k Hk. apply (bool_decide_unpack _). revert k Hk.
      apply Forall_forall. repeat constructor.
    + reflexivity.
Defined.

(** X3. When [from_dict] returns a book, the value it was given is a
    dictionary, and under each of the five keys it holds what [to_dict] of
    the book holds: the other keys of the dictionary, and the order of its
    keys, are forgotten. *)
Theorem from_dict_keeps_fields (data : json) (book : Book.t) :
  Book.from_dict data = Return book →
  (∃ members, data = JDict members)
  ∧ ∀ key, key ∈ Fields.keys →
      Book.subscript data key = Book.subscript (Book.to_dict book) key.
Proof.
  intros Hfrom. destruct data as [| | | | |members]; try done.
  split; [by eexists|].
  unfold Book.from_dict, Book.subscript in Hfrom.
  destruct (dict_get members "id") as [v1|] eqn:H1; [|done].
  destruct (dict_get members "title") as [v2|] eqn:H2; [|done].
  destruct (dict_get members "author") as [v3|] eqn:H3; [|done].
  destruct (dict_get members "year") as [v4|] eqn:H4; [|done].
  destruct (dict_get members "status") as [v5|] eqn:H5; [|done].
  simpl in Hfrom.
  destruct v1; try done. destruct v2; try done. destruct v3; try done.
  destruct v4; try done. destruct v5; try done.
  simpl in Hfrom. injection Hfrom as <-.
  intros key Hkey. unfold Fields.keys in Hkey.
  repeat (apply elem_of_cons in Hkey as [->|Hkey];
          [simpl; by rewrite ?H1, ?H2, ?H3, ?H4, ?H5|]).
  by apply elem_of_nil in Hkey.
Qed.

Lemma from_dict_keeps_fields_witness :
  let data := JDict [("note", JNull); ("status", JStr "x"); ("year", JInt 1965);
                     ("author", JStr "Herbert"); ("title", JStr "Dune");
                     ("id", JInt 1); ("id", JInt 2)] in
  let book := Book.Build 1 "Dune" "Herbert" 1965 "x" in
  (∃ members, data = JDict members)
  ∧ ∀ key, key ∈ Fields.keys →
      Book.subscript data key = Book.subscript (Book.to_dict book) key.
Proof.
  intros data book. apply (from_dict_keeps_fields data book). reflexivity.
Defined.

(** ** The manager *)

Section Manager.

Variable json_loads : string → option json.
Variable json_dumps : json → string.
Variable str_lower : string → string.
Variable str_isdigit : string → bool.
Variable py_int : string → option Z.

Abbreviation _load_books := (LibraryManager._load_books json_loads).
Abbreviation _save_books := (LibraryManager._save_books json_dumps).
Abbreviation _generate_id := (LibraryManager._generate_id json_loads).
Abbreviation add_book := (LibraryManager.add_book json_loads json_dumps).
Abbreviation delete_book := (LibraryManager.delete_book json_loads json_dumps).
Abbreviation found := (LibraryManager.found str_lower str_isdigit py_int).
Abbreviation found_books := (LibraryManager.found_books str_lower str_isdigit py_int).
Abbreviation find_books :=
  (LibraryManager.find_books json_loads str_lower str_isdigit py_int).
Abbreviation change_status := (LibraryManager.change_status json_loads json_dumps).
Abbreviation display_books := (LibraryManager.display_books json_loads).
Abbreviation text_of := (Store.text_of json_dumps).
Abbreviation line_of := (Store.line_of json_dumps).

Lemma generate_id_raise (w : world) (e : exn) :
  _load_books w = (Raise e, w) → _generate_id w = (Raise e, w).
Proof.
  intros Hload. unfold LibraryManager._generate_id.
  by rewrite (RunFacts.bind_raise _ _ _ _ _ Hload).
Qed.

(** X4. [_load_books], [_generate_id] and [find_books] leave the world as
    it was, whatever the backing file and whatever they return or raise:
    they write nothing and print nothing. *)
Theorem readers_change_nothing (w : world) (keyword : string) :
  (_load_books w).2 = w ∧ (_generate_id w).2 = w ∧ (find_books keyword w).2 = w.
Proof.
  pose proof (StoreFacts.load_run json_loads w) as Hload.
  split; [by rewrite Hload|]. split; [|apply LoadFacts.find_books_world].
  unfold LibraryManager._generate_id.
  unfold mbind, M_bind, bind. rewrite Hload.
  by destruct (match file w with None => _ | Some _ => _ end).
Qed.

(** X5. When the backing file does not load, every operation raises what
    loading raises and leaves the world as it was: [add_book] appends
    nothing, [delete_book] and [change_status] rewrite nothing, and nothing
    is printed. *)
Theorem failing_load_stops_everything (w : world) (e : exn) :
  _load_books w = (Raise e, w) →
  (∀ title author year, add_book title author year w = (Raise e, w))
  ∧ (∀ book_id, delete_book book_id w = (Raise e, w))
  ∧ (∀ book_id status, change_status book_id status w = (Raise e, w))
  ∧ (∀ keyword, find_books keyword w = (Raise e, w))
  ∧ display_books w = (Raise e, w)
  ∧ _generate_id w = (Raise e, w).
Proof.
  intros Hload. repeat split; intros;
    try (unfold LibraryManager.add_book;
         by rewrite (RunFacts.bind_raise _ _ _ _ _ (generate_id_raise _ _ Hload)));
    unfold LibraryManager.delete_book, LibraryManager.change_status,
      LibraryManager.find_books, LibraryManager.display_books,
      LibraryManager._generate_id;
    by rewrite (RunFacts.bind_raise _ _ _ _ _ Hload).
Qed.

(** X6. Saving any sequence of books and loading returns that sequence,
    whatever the backing file was before, even absent or not loading: the
    file is replaced by one line for each book. *)
Theorem save_then_load (w : world) (books : list Book.t) :
  Store.codec_laws json_loads json_dumps →
  ∃ w' : world,
    (_save_books books;; _load_books) w = (Return books, w')
    ∧ file w' = Some (text_of books).
Proof.
  intros laws. eexists.
  rewrite (RunFacts.bind_run _ _ _ _ _ (StoreFacts.save_run _ _ _)).
  by rewrite (StoreFacts.load_text_of json_loads json_dumps laws).
Qed.

(** X7. With the empty keyword [find_books] returns every record of the
    file: the empty string, which lowering leaves empty, is in every
    title. *)
Theorem find_books_empty_keyword (w : world) (books : list Book.t) :
  str_lower "" = "" →
  _load_books w = (Return books, w) →
  find_books "" w = (Return books, w).
Proof.
  intros Hlower Hload. rewrite (LoadFacts.find_books_run _ _ _ _ _ _ _ Hload).
  f_equal. clear Hload. induction books as [|book books IH]; [done|]. simpl.
  unfold LibraryManager.found at 1.
  by rewrite Hlower, StrFacts.contains_empty, IH.
Qed.

(** The condition of [find_books] looks at the keyword up to the case of its
    letters. *)
Lemma found_lower (k k' : string) (book : Book.t) :
  Spec.digits_uncased str_lower str_isdigit →
  str_lower k = str_lower k' →
  found k book = found k' book.
Proof.
  intros Huncased Hlower. unfold LibraryManager.found. rewrite Hlower.
  destruct (Str.contains (str_lower (Book.title book)) _); [done|].
  destruct (Str.contains (str_lower (Book.author book)) _); [done|].
  destruct (str_isdigit k) eqn:Hk.
  - by rewrite (Huncased k k' Hk), Hk.
  - destruct (str_isdigit k') eqn:Hk'; [|done].
    rewrite (Huncased k' k Hk') in Hk by done. congruence.
Qed.

(** X8. [find_books] does not look at the case of the letters of the
    keyword: two keywords that are the same once lowered give the same
    result, on every backing file. Digits have no case. *)
Theorem find_books_keyword_case (w : world) (keyword keyword' : string) :
  Spec.digits_uncased str_lower str_isdigit →
  str_lower keyword = str_lower keyword' →
  find_books keyword w = find_books keyword' w.
Proof.
  intros Huncased Hlower. unfold LibraryManager.find_books, mbind, M_bind, bind.
  destruct (_load_books w) as [[books| |] w']; [|done..].
  unfold lift. f_equal.
  induction books as [|book books IH]; [done|]. simpl.
  by rewrite (found_lower _ _ book Huncased Hlower), IH.
Qed.

(** X9. [display_books] writes nothing. On a file that loads as no record,
    or with no file, it prints that the library has no books yet; otherwise
    it prints one line for each record, in the order of the file, with the
    id, the title, the author, the year and the status. *)
Theorem display_books_prints (w : world) (books : list Book.t) :
  _load_books w = (Return books, w) →
  display_books w
  = (Return tt,
     Store.after w
       match books with
       | [] => [Printed "В библиотеке пока нет книг"]
       | _ =>
           (λ book,
              Printed ("ID: " +:+ Str.of_int (Book.id book)
                       +:+ ", Название: " +:+ Book.title book
                       +:+ ", Автор: " +:+ Book.author book
                       +:+ ", Год: " +:+ Str.of_int (Book.year book)
                       +:+ ", Статус: " +:+ Book.status book)) <$> books
       end).
Proof.
  intros Hload. unfold LibraryManager.display_books.
  rewrite (RunFacts.bind_run _ _ _ _ _ Hload).
  destruct books; [done|]. by rewrite MainFacts.for_display_run.
Qed.

(** *** How the operations compose *)

Lemma ids_filter (books : list Book.t) (book_id x : Z) :
  x ∈ Store.ids (filter (λ book, Book.id book ≠ book_id) books)
  ↔ x ∈ Store.ids books ∧ x ≠ book_id.
Proof.
  rewrite !OpFacts.elem_of_ids. split.
  - intros (book & [Hne Hin]%list_elem_of_filter & <-). split; [by exists book|done].
  - intros [(book & Hin & <-) Hne]. exists book. split; [|done].
    by apply list_elem_of_filter.
Qed.

Lemma filter_absent (books : list Book.t) (book_id : Z) :
  book_id ∉ Store.ids books →
  filter (λ book, Book.id book ≠ book_id) books = books.
Proof.
  intros Hnot. apply OpFacts.filter_all, Forall_forall.
  intros book Hbook Hid. apply Hnot, OpFacts.elem_of_ids. eauto.
Qed.

(** The world [delete_book] leaves, and what it loads as. *)
Lemma delete_book_then_load (w : world) (books : list Book.t) (book_id : Z) :
  Store.codec_laws json_loads json_dumps →
  _load_books w = (Return books, w) →
  ∃ w' : world,
    delete_book book_id w = (Return tt, w')
    ∧ _load_books w'
      = (Return (filter (λ book, Book.id book ≠ book_id) books), w')
    ∧ file w' = (if decide (book_id ∈ Store.ids books)
                 then Some (text_of (filter (λ book, Book.id book ≠ book_id) books))
                 else file w).
Proof.
  intros laws Hload. eexists. split; [by apply RunFacts.delete_book_run|].
  destruct (decide (book_id ∈ Store.ids books)) as [Hin|Hnot].
  - split; [|done]. by apply (StoreFacts.load_text_of json_loads json_dumps laws).
  - split; [|done]. rewrite filter_absent by done. by apply RunFacts.load_after.
Qed.

(** The world [change_status] leaves, and what it loads as. *)
Lemma change_status_then_load (w : world) (books : list Book.t)
    (book_id : Z) (status : string) :
  Store.codec_laws json_loads json_dumps →
  _load_books w = (Return books, w) →
  ∃ w' : world,
    change_status book_id status w = (Return tt, w')
    ∧ _load_books w' = (Return (Store.update_first books book_id status), w')
    ∧ file w' = (if decide (book_id ∈ Store.ids books)
                 then Some (text_of (Store.update_first books book_id status))
                 else file w).
Proof.
  intros laws Hload. eexists. split; [by apply RunFacts.change_status_run|].
  destruct (decide (book_id ∈ Store.ids books)) as [Hin|Hnot].
  - destruct (Store.first_with books book_id) eqn:Hfirst.
    + split; [|done]. by apply (StoreFacts.load_text_of json_loads json_dumps laws).
    + exfalso. clear Hload. induction books as [|b books IH];
        [by apply elem_of_nil in Hin|].
      simpl in Hfirst. rewrite OpFacts.ids_cons, elem_of_cons in Hin.
      destruct (Z.eqb_spec (Book.id b) book_id); [done|].
      destruct Hin as [?|?]; [congruence|]. by apply IH.
  - rewrite OpFacts.first_with_missing by done. split; [|done].
    assert (Store.update_first books book_id status = books) as ->.
    { clear Hload. induction books as [|b books IH]; [done|].
      rewrite OpFacts.ids_cons, not_elem_of_cons in Hnot. destruct Hnot as [Hne Hnot].
      simpl. destruct (Z.eqb_spec (Book.id b) book_id) as [Heq|_]; [by destruct Hne|].
      by rewrite IH. }
    by apply RunFacts.load_after.
Qed.

(** X10. After [delete_book book_id], [book_id] being positive, the id
    [_generate_id] returns is at most [book_id], and it is [book_id] when
    every smaller positive integer is the id of a record: the id of a
    deleted record is given again. *)
Theorem deleted_id_is_reused (w : world) (books : list Book.t) (book_id : Z) :
  Store.codec_laws json_loads json_dumps →
  _load_books w = (Return books, w) →
  (1 ≤ book_id)%Z →
  ∃ (w' : world) (r : Z),
    (delete_book book_id;; _generate_id) w = (Return r, w')
    ∧ (1 ≤ r ≤ book_id)%Z
    ∧ ((∀ k : Z, (1 ≤ k < book_id)%Z → k ∈ Store.ids books) → r = book_id).
Proof.
  intros laws Hload Hpos.
  destruct (delete_book_then_load w books book_id laws Hload)
    as (w' & Hdelete & Hload' & _).
  destruct (IdFacts.smallest_unused_exists
              (Store.ids (filter (λ book, Book.id book ≠ book_id) books)))
    as (r & Hr & _).
  exists w', r. split.
  { rewrite (RunFacts.bind_run _ _ _ _ _ Hdelete).
    by apply (RunFacts.generate_id_run _ _ _ _ Hload'). }
  destruct Hr as (Hr1 & Hfree & Hbelow).
  assert (r ≤ book_id)%Z as Hle.
  { destruct (Z.le_gt_cases r book_id) as [|Hgt]; [done|].
    assert (book_id ∈ Store.ids (filter (λ book, Book.id book ≠ book_id) books)) as Hin
      by (apply Hbelow; lia).
    apply ids_filter in Hin. by destruct Hin. }
  split; [lia|]. intros Hall.
  destruct (decide (r = book_id)) as [|Hne]; [done|].
  destruct Hfree. apply ids_filter. split; [apply Hall; lia|done].
Qed.

(** X11. A second [delete_book] of the same id finds nothing: it prints that
    the book was not found and writes nothing. *)
Theorem delete_book_twice (w : world) (books : list Book.t) (book_id : Z) :
  Store.codec_laws json_loads json_dumps →
  _load_books w = (Return books, w) →
  ∃ w' : world,
    delete_book book_id w = (Return tt, w')
    ∧ delete_book book_id w'
      = (Return tt, Store.after w' [Printed (Store.not_found_ID book_id)]).
Proof.
  intros laws Hload.
  destruct (delete_book_then_load w books book_id laws Hload)
    as (w' & Hdelete & Hload' & _).
  exists w'. split; [done|].
  rewrite (RunFacts.delete_book_run _ _ _ _ _ Hload').
  rewrite decide_False; [done|].
  intros [_ Hne]%ids_filter. done.
Qed.

(** X12. Two [delete_book] calls leave the same backing file in either
    order. *)
Theorem delete_book_commutes (w : world) (books : list Book.t) (a b : Z) :
  Store.codec_laws json_loads json_dumps →
  _load_books w = (Return books, w) →
  ∃ w1 w2 : world,
    (delete_book a;; delete_book b) w = (Return tt, w1)
    ∧ (delete_book b;; delete_book a) w = (Return tt, w2)
    ∧ file w1 = file w2.
Proof.
  intros laws Hload.
  destruct (delete_book_then_load w books a laws Hload) as (wa & Ha & Hla & Hfa).
  destruct (delete_book_then_load w books b laws Hload) as (wb & Hb & Hlb & Hfb).
  destruct (delete_book_then_load wa _ b laws Hla) as (wab & Hab & _ & Hfab).
  destruct (delete_book_then_load wb _ a laws Hlb) as (wba & Hba & _ & Hfba).
  exists wab, wba.
  split; [by rewrite (RunFacts.bind_run _ _ _ _ _ Ha)|].
  split; [by rewrite (RunFacts.bind_run _ _ _ _ _ Hb)|].
  rewrite Hfab, Hfba, Hfa, Hfb.
  assert (filter (λ book, Book.id book ≠ b) (filter (λ book, Book.id book ≠ a) books)
          = filter (λ book, Book.id book ≠ a) (filter (λ book, Book.id book ≠ b) books))
    as Hswap.
  { rewrite !list_filter_filter. apply list_filter_iff. intros book. tauto. }
  destruct (decide (a = b)) as [->|Hab']; [done|].
  destruct (decide (b ∈ Store.ids books)) as [Hb'|Hb'],
           (decide (a ∈ Store.ids books)) as [Ha'|Ha'].
  - rewrite !decide_True by (apply ids_filter; auto). by rewrite Hswap.
  - rewrite decide_True by (apply ids_filter; auto).
    rewrite decide_False by (intros [? _]%ids_filter; done).
    by rewrite (filter_absent books a).
  - rewrite decide_False by (intros [? _]%ids_filter; done).
    rewrite decide_True by (apply ids_filter; auto).
    by rewrite (filter_absent books b).
  - rewrite !decide_False by (intros [? _]%ids_filter; done). done.
Qed.

Lemma with_status_twice (book : Book.t) (status status' : string) :
  status' ∈ [Book.AVAILABLE; Book.LOANED] →
  Store.with_status (Store.with_status book status) status'
  = Store.with_status book status'.
Proof.
  intros Hvalid. unfold Store.with_status.
  rewrite (bool_decide_eq_true_2 _ Hvalid). by case_bool_decide.
Qed.

Lemma update_first_twice (books : list Book.t) (book_id : Z) (status status' : string) :
  status' ∈ [Book.AVAILABLE; Book.LOANED] →
  Store.update_first (Store.update_first books book_id status) book_id status'
  = Store.update_first books book_id status'.
Proof.
  intros Hvalid. induction books as [|book books IH]; [done|]. simpl.
  destruct (Z.eqb_spec (Book.id book) book_id) as [Heq|Hne]; simpl.
  - assert (Book.id (Store.with_status book status) = Book.id book) as ->
      by (unfold Store.with_status; by case_bool_decide).
    rewrite (proj2 (Z.eqb_eq _ _) Heq). by rewrite with_status_twice.
  - rewrite (proj2 (Z.eqb_neq _ _) Hne). by rewrite IH.
Qed.

(** X13. Of two [change_status] calls for the same id the second decides
    when its status is one of the two values: the backing file is then the
    one the second call alone would leave, whatever the first status was. *)
Theorem last_status_wins (w : world) (books : list Book.t) (book_id : Z)
    (status status' : string) :
  Store.codec_laws json_loads json_dumps →
  _load_books w = (Return books, w) →
  status' ∈ [Book.AVAILABLE; Book.LOANED] →
  ∃ w1 w2 : world,
    (change_status book_id status;; change_status book_id status') w = (Return tt, w1)
    ∧ change_status book_id status' w = (Return tt, w2)
    ∧ file w1 = file w2.
Proof.
  intros laws Hload Hvalid.
  destruct (change_status_then_load w books book_id status laws Hload)
    as (wa & Ha & Hla & Hfa).
  destruct (change_status_then_load wa _ book_id status' laws Hla)
    as (w1 & H1 & _ & Hf1).
  destruct (change_status_then_load w books book_id status' laws Hload)
    as (w2 & H2 & _ & Hf2).
  exists w1, w2. split; [by rewrite (RunFacts.bind_run _ _ _ _ _ Ha)|].
  split; [done|].
  rewrite Hf1, Hf2, Hfa, OpFacts.update_first_ids, update_first_twice by done.
  by destruct (decide (book_id ∈ Store.ids books)).
Qed.

Lemma smallest_unused_after (n : nat) :
  Spec.smallest_unused (seqZ 1 (Z.of_nat n)) (1 + Z.of_nat n).
Proof.
  split; [lia|]. split.
  - rewrite elem_of_seqZ. lia.
  - intros k Hk. apply elem_of_seqZ. lia.
Qed.

Lemma adds_from (entries : list (string * string * Z)) (w : world)
    (books : list Book.t) (n : nat) :
  Store.codec_laws json_loads json_dumps →
  Store.terminated w →
  _load_books w = (Return books, w) →
  Store.ids books = seqZ 1 (Z.of_nat n) →
  ∃ w' : world,
    Session.run_all json_loads json_dumps (Entries.adds entries) w = (Return tt, w')
    ∧ _load_books w'
      = (Return (books ++ Entries.numbered (1 + Z.of_nat n) entries), w').
Proof.
  intros laws. revert w books n.
  induction entries as [|[[title author] year] entries IH];
    intros w books n Hterm Hload Hids.
  - exists w. split; [done|]. by rewrite app_nil_r.
  - pose proof (smallest_unused_after n) as Hr. rewrite <- Hids in Hr.
    pose proof (RunFacts.add_book_run json_loads json_dumps w books _
                  title author year Hload Hr) as Hadd. cbv zeta in Hadd.
    destruct (StoreFacts.holds_appended json_loads json_dumps laws w books
                (Book.Build (1 + Z.of_nat n) title author year Book.AVAILABLE)
                (trace w ++ [Written (line_of (Book.Build (1 + Z.of_nat n) title
                                                 author year Book.AVAILABLE));
                             Printed (Store.added title)]) Hterm Hload)
      as [Hterm' Hload'].
    destruct (IH _ _ (S n) Hterm' Hload') as (w' & Hrun & Hload'').
    { rewrite OpFacts.ids_app, Hids, seqZ_S. done. }
    exists w'. split.
    + simpl. by rewrite (RunFacts.bind_run _ _ _ _ _ Hadd).
    + rewrite Hload''. rewrite <- app_assoc. simpl.
      by replace (1 + Z.of_nat (S n))%Z with (1 + Z.of_nat n + 1)%Z by lia.
Qed.

(** X14. Starting with no backing file, or an empty one, one [add_book] for
    each entry gives the entries the ids 1, 2, 3, ... in the order of the
    calls: the file then loads as these records, all AVAILABLE. *)
Theorem consecutive_adds (w : world) (entries : list (string * string * Z)) :
  Store.codec_laws json_loads json_dumps →
  file w = None ∨ file w = Some "" →
  ∃ w' : world,
    Session.run_all json_loads json_dumps (Entries.adds entries) w = (Return tt, w')
    ∧ _load_books w' = (Return (Entries.numbered 1 entries), w').
Proof.
  intros laws Hfile.
  apply (adds_from entries w [] 0 laws).
  - unfold Store.terminated. by destruct Hfile as [-> | ->].
  - rewrite StoreFacts.load_run. by destruct Hfile as [-> | ->].
  - done.
Qed.

(** X15. [add_book] followed by [delete_book] of the id it gave leaves a
    file that loads as before, when the last line of the file was closed
    by a newline. *)
Theorem add_then_delete (w : world) (books : list Book.t)
    (title author : string) (year : Z) :
  Store.codec_laws json_loads json_dumps →
  Store.terminated w →
  _load_books w = (Return books, w) →
  ∃ (new_id : Z) (w' : world),
    _generate_id w = (Return new_id, w)
    ∧ (add_book title author year;; delete_book new_id;; _load_books) w
      = (Return books, w').
Proof.
  intros laws Hterm Hload.
  destruct (IdFacts.smallest_unused_exists (Store.ids books)) as (r & Hr & _).
  pose proof (RunFacts.add_book_run json_loads json_dumps w books r
                title author year Hload Hr) as Hadd. cbv zeta in Hadd.
  destruct (StoreFacts.holds_appended json_loads json_dumps laws w books
              (Book.Build r title author year Book.AVAILABLE)
              (trace w ++ [Written (line_of (Book.Build r title author year
                                               Book.AVAILABLE));
                           Printed (Store.added title)]) Hterm Hload)
    as [_ Hload'].
  destruct (delete_book_then_load _ _ r laws Hload') as (w' & Hdelete & Hload'' & _).
  exists r, w'. split; [by apply (RunFacts.generate_id_run _ _ books)|].
  rewrite (RunFacts.bind_run _ _ _ _ _ Hadd), (RunFacts.bind_run _ _ _ _ _ Hdelete).
  rewrite Hload''. rewrite filter_app, filter_absent by (by destruct Hr as (_ & ? & _)).
  rewrite filter_cons_False by (simpl; auto). by rewrite filter_nil, app_nil_r.
Qed.

(** X16. A book that [add_book] added is found by its title and by its
    author: on a file whose last line was closed by a newline,
    [find_books] with the title, or with the author, returns what it
    returned before followed by the new record. *)
Theorem add_then_find (w : world) (books : list Book.t)
    (title author : string) (year : Z) :
  Store.codec_laws json_loads json_dumps →
  Store.terminated w →
  _load_books w = (Return books, w) →
  ∃ (new_id : Z) (w' : world),
    let new_book := Book.Build new_id title author year Book.AVAILABLE in
    _generate_id w = (Return new_id, w)
    ∧ (∀ before : list Book.t,
         find_books title w = (Return before, w) →
         (add_book title author year;; find_books title) w
         = (Return (before ++ [new_book]), w'))
    ∧ (∀ before : list Book.t,
         find_books author w = (Return before, w) →
         (add_book title author year;; find_books author) w
         = (Return (before ++ [new_book]), w')).
Proof.
  intros laws Hterm Hload.
  destruct (IdFacts.smallest_unused_exists (Store.ids books)) as (r & Hr & _).
  pose proof (RunFacts.add_book_run json_loads json_dumps w books r
                title author year Hload Hr) as Hadd. cbv zeta in Hadd.
  destruct (StoreFacts.holds_appended json_loads json_dumps laws w books
              (Book.Build r title author year Book.AVAILABLE)
              (trace w ++ [Written (line_of (Book.Build r title author year
                                               Book.AVAILABLE));
                           Printed (Store.added title)]) Hterm Hload)
    as [_ Hload'].
  eexists r, _. split; [by apply (RunFacts.generate_id_run _ _ books)|].
  split; intros before; rewrite (LoadFacts.find_books_run _ _ _ _ _ _ _ Hload);
    intros [= Hbefore]; rewrite (RunFacts.bind_run _ _ _ _ _ Hadd);
    rewrite (LoadFacts.find_books_run _ _ _ _ _ _ _ Hload');
    rewrite LoadFacts.found_books_app, Hbefore; simpl;
    unfold LibraryManager.found; simpl;
    by rewrite ?StrFacts.contains_self;
       repeat (case_match; try done).
Qed.

End Manager.

(** ** The menu loop of [main] *)

Section Main.

Variable json_loads : string → option json.
Variable json_dumps : json → string.
Variable str_lower : string → string.
Variable str_isdigit : string → bool.
Variable py_int : string → option Z.

Abbreviation branch :=
  (Console.branch json_loads json_dumps str_lower str_isdigit py_int).
Abbreviation turn := (Console.turn json_loads json_dumps str_lower str_isdigit py_int).
Abbreviation loop := (Console.loop json_loads json_dumps str_lower str_isdigit py_int).
Abbreviation main := (Console.main json_loads json_dumps str_lower str_isdigit py_int).

Lemma main_next_turn (c c' : Console.t) :
  turn c = (Console.Done false, c') → main c = main c'.
Proof.
  apply (MainFacts.main_turn json_loads json_dumps str_lower str_isdigit py_int (λ _, True)); [done|].
  apply MainFacts.operations_end.
Qed.

(** X17. [main] ends on every input of finitely many lines: it returns or it
    raises, and the loop shows the menu at most once more than there are
    lines to read (allowed that many turns or more, the loop does the
    same). *)
Theorem main_ends (c : Console.t) :
  (main c).1 ≠ Console.Running
  ∧ ∀ fuel : nat, length (Console.stdin c) < fuel → loop fuel c = main c.
Proof.
  split.
  - apply (MainFacts.loop_ends json_loads json_dumps str_lower str_isdigit py_int (λ _, True));
      [done|apply MainFacts.operations_end|lia].
  - intros fuel Hfuel.
    apply (MainFacts.main_loop json_loads json_dumps str_lower str_isdigit py_int (λ _, True));
      [done|apply MainFacts.operations_end|done].
Qed.

(** X18. A choice that is none of 1 to 6 changes nothing in the backing
    file: [main] prints that the choice is incorrect and goes on with the
    lines that follow. *)
Theorem unknown_choice (c : Console.t) (choice : string) (rest : list string) :
  Console.stdin c = choice :: rest →
  choice ∉ ["1"; "2"; "3"; "4"; "5"; "6"] →
  main c
  = main {| Console.disk := Console.disk c; Console.stdin := rest;
            Console.log := Console.log (Console.chosen c choice rest)
              ++ [Console.Did (Printed "Некорректный выбор. Попробуйте снова.")] |}.
Proof.
  intros Hstdin Hchoice. apply main_next_turn.
  rewrite (MainFacts.turn_run _ _ _ _ _ c choice rest Hstdin).
  unfold Console.branch.
  repeat (rewrite (proj2 (String.eqb_neq choice _));
          [|intros ->; apply Hchoice; apply (bool_decide_unpack _); by vm_compute]).
  done.
Qed.

(** X19. A line that [int] refuses where a year or an id is asked makes
    [main] raise [ValueError]; the backing file is as it was before the
    choice, and for a change of status the new status is not asked. *)
Theorem bad_number_crashes (c : Console.t) (text : string) (rest : list string) :
  py_int text = None →
  (∀ title author,
     Console.stdin c = "1" :: title :: author :: text :: rest →
     ∃ c', main c = (Console.Crashed (Console.ValueError text), c')
           ∧ Console.disk c' = Console.disk c ∧ Console.stdin c' = rest)
  ∧ (Console.stdin c = "2" :: text :: rest →
     ∃ c', main c = (Console.Crashed (Console.ValueError text), c')
           ∧ Console.disk c' = Console.disk c ∧ Console.stdin c' = rest)
  ∧ (Console.stdin c = "5" :: text :: rest →
     ∃ c', main c = (Console.Crashed (Console.ValueError text), c')
           ∧ Console.disk c' = Console.disk c ∧ Console.stdin c' = rest).
Proof.
  intros Hint.
  assert (∀ c0 c', turn c0 = (Console.Crashed (Console.ValueError text), c') →
                   main c0 = (Console.Crashed (Console.ValueError text), c')) as Hcrash.
  { intros c0 c'.
    apply (MainFacts.main_crash json_loads json_dumps str_lower str_isdigit py_int). }
  split; [|split].
  - intros title author Hstdin. eexists. split.
    + apply Hcrash. rewrite (MainFacts.turn_run _ _ _ _ _ c _ _ Hstdin).
      unfold Console.branch, mbind, Console.C_bind, Console.input, Console.int.
      simpl. rewrite Hint. done.
    + done.
  - intros Hstdin. eexists. split.
    + apply Hcrash. rewrite (MainFacts.turn_run _ _ _ _ _ c _ _ Hstdin).
      unfold Console.branch, mbind, Console.C_bind, Console.input, Console.int.
      simpl. rewrite Hint. done.
    + done.
  - intros Hstdin. eexists. split.
    + apply Hcrash. rewrite (MainFacts.turn_run _ _ _ _ _ c _ _ Hstdin).
      unfold Console.branch, mbind, Console.C_bind, Console.input, Console.int.
      simpl. rewrite Hint. done.
    + done.
Qed.

(** X20. [main] keeps the backing file good: when it starts on a file that
    loads as records no two of which share an id, and that is absent or
    ends with a newline, the file is such when [main] returns or raises,
    whatever the lines of input. *)
Theorem main_keeps_ids_distinct (c : Console.t) :
  Store.codec_laws json_loads json_dumps →
  Console.good json_loads c →
  Console.good json_loads (main c).2.
Proof.
  intros laws. unfold Console.good.
  apply (MainFacts.loop_ends json_loads json_dumps str_lower str_isdigit py_int
           (Console.good_world json_loads)).
  - apply MainFacts.good_world_file.
  - by apply MainFacts.operations_keep_good.
  - lia.
Qed.

(** X21. The choice 6 ends [main]: it prints the farewell and returns, the
    backing file untouched and the lines that follow unread. With no line
    left to read where a choice is asked, [main] raises [EOFError], the
    backing file untouched. *)
Theorem main_leaves (c : Console.t) :
  (∀ rest,
     Console.stdin c = "6" :: rest →
     main c
     = (Console.Done tt,
        {| Console.disk := Console.disk c; Console.stdin := rest;
           Console.log := Console.log (Console.chosen c "6" rest)
             ++ [Console.Did (Printed "Выход из приложения. До свидания!")] |}))
  ∧ (Console.stdin c = [] →
     main c
     = (Console.Crashed Console.EOFError,
        {| Console.disk := Console.disk c; Console.stdin := [];
           Console.log := Console.log c ++ Console.menu_log
                          ++ [Console.Asked "Выберите действие: " None] |})).
Proof.
  split.
  - intros rest Hstdin.
    apply (MainFacts.main_stop json_loads json_dumps str_lower str_isdigit py_int).
    by rewrite (MainFacts.turn_run _ _ _ _ _ c _ _ Hstdin).
  - intros Hstdin.
    apply (MainFacts.main_crash json_loads json_dumps str_lower str_isdigit py_int).
    by apply MainFacts.turn_eof.
Qed.

End Main.

(** ** The behaviour at work, with the codec of [Codec] *)

Abbreviation _load_books := (LibraryManager._load_books Codec.loads).
Abbreviation _save_books := (LibraryManager._save_books Codec.dumps).
Abbreviation _generate_id := (LibraryManager._generate_id Codec.loads).
Abbreviation add_book := (LibraryManager.add_book Codec.loads Codec.dumps).
Abbreviation delete_book := (LibraryManager.delete_book Codec.loads Codec.dumps).
Abbreviation find_books :=
  (LibraryManager.find_books Codec.loads Sample.lower Sample.isdigit Sample.int).
Abbreviation change_status := (LibraryManager.change_status Codec.loads Codec.dumps).
Abbreviation display_books := (LibraryManager.display_books Codec.loads).
Abbreviation main :=
  (Console.main Codec.loads Codec.dumps Sample.lower Sample.isdigit Sample.int).
Abbreviation loop :=
  (Console.loop Codec.loads Codec.dumps Sample.lower Sample.isdigit Sample.int).

Lemma failing_load_stops_everything_witness :
  let w := Shelf.damaged in
  let e := JSONDecodeError ("{" +:+ LibraryManager.nl) in
  (∀ title author year, add_book title author year w = (Raise e, w))
  ∧ (∀ book_id, delete_book book_id w = (Raise e, w))
  ∧ (∀ book_id status, change_status book_id status w = (Raise e, w))
  ∧ (∀ keyword, find_books keyword w = (Raise e, w))
  ∧ display_books w = (Raise e, w)
  ∧ _generate_id w = (Raise e, w).
Proof.
  intros w e.
  apply (failing_load_stops_everything Codec.loads Codec.dumps Sample.lower
           Sample.isdigit Sample.int w e).
  vm_compute. reflexivity.
Defined.

Lemma save_then_load_witness :
  let books := [Shelf.solaris; Shelf.dune] in
  ∃ w' : world,
    (_save_books books;; _load_books) Shelf.damaged = (Return books, w')
    ∧ file w' = Some (Store.text_of Codec.dumps books).
Proof.
  intros books.
  apply (save_then_load Codec.loads Codec.dumps Shelf.damaged books CodecFacts.laws).
Defined.

Lemma find_books_empty_keyword_witness :
  let books := [Shelf.dune; Shelf.fahrenheit] in
  find_books "" (Shelf.holding books) = (Return books, Shelf.holding books).
Proof.
  intros books.
  apply (find_books_empty_keyword Codec.loads Sample.lower Sample.isdigit Sample.int
           (Shelf.holding books) books).
  - reflexivity.
  - vm_compute. reflexivity.
Defined.

Lemma find_books_keyword_case_witness :
  let w := Shelf.holding [Shelf.dune; Shelf.fahrenheit] in
  find_books "bRaD" w = find_books "BRAD" w
  ∧ find_books "BRAD" w = (Return [Shelf.fahrenheit], w).
Proof.
  intros w. split.
  - apply (find_books_keyword_case Codec.loads Sample.lower Sample.isdigit Sample.int
             w "bRaD" "BRAD").
    + exact SampleFacts.digits_uncased.
    + reflexivity.
  - vm_compute. reflexivity.
Defined.

Lemma display_books_prints_witness :
  let w := Shelf.holding [Shelf.dune; Shelf.solaris] in
  display_books w
  = (Return tt,
     Store.after w
       [Printed "ID: 1, Название: Dune, Автор: Herbert, Год: 1965, Статус: в наличии";
        Printed "ID: 3, Название: Solaris, Автор: Lem, Год: 1961, Статус: выдана"])
  ∧ display_books Shelf.no_file
    = (Return tt, Store.after Shelf.no_file [Printed "В библиотеке пока нет книг"]).
Proof.
  intros w. split.
  - rewrite (display_books_prints Codec.loads w [Shelf.dune; Shelf.solaris]).
    + vm_compute. reflexivity.
    + vm_compute. reflexivity.
  - apply (display_books_prints Codec.loads Shelf.no_file []). reflexivity.
Defined.

Lemma deleted_id_is_reused_witness :
  let books := [Shelf.dune; Shelf.fahrenheit; Shelf.solaris] in
  ∃ w' : world,
    (delete_book 2;; _generate_id) (Shelf.holding books) = (Return 2%Z, w').
Proof.
  intros books.
  destruct (deleted_id_is_reused Codec.loads Codec.dumps (Shelf.holding books)
              books 2 CodecFacts.laws) as (w' & r & Hrun & _ & Hr).
  - vm_compute. reflexivity.
  - lia.
  - exists w'. rewrite Hrun, Hr; [reflexivity|].
    intros k Hk. assert (k = 1%Z) as -> by lia. apply list_elem_of_here.
Defined.

Lemma delete_book_twice_witness :
  let books := [Shelf.dune; Shelf.fahrenheit] in
  ∃ w' : world,
    delete_book 1 (Shelf.holding books) = (Return tt, w')
    ∧ delete_book 1 w'
      = (Return tt, Store.after w' [Printed (Store.not_found_ID 1)]).
Proof.
  intros books.
  apply (delete_book_twice Codec.loads Codec.dumps (Shelf.holding books) books 1
           CodecFacts.laws).
  vm_compute. reflexivity.
Defined.

Lemma delete_book_commutes_witness :
  let books := [Shelf.dune; Shelf.fahrenheit; Shelf.solaris] in
  ∃ w1 w2 : world,
    (delete_book 3;; delete_book 1) (Shelf.holding books) = (Return tt, w1)
    ∧ (delete_book 1;; delete_book 3) (Shelf.holding books) = (Return tt, w2)
    ∧ file w1 = file w2.
Proof.
  intros books.
  apply (delete_book_commutes Codec.loads Codec.dumps (Shelf.holding books) books 3 1
           CodecFacts.laws).
  vm_compute. reflexivity.
Defined.

Lemma last_status_wins_witness :
  let books := [Shelf.dune; Shelf.fahrenheit] in
  ∃ w1 w2 : world,
    (change_status 1 "lost";; change_status 1 Book.LOANED) (Shelf.holding books)
    = (Return tt, w1)
    ∧ change_status 1 Book.LOANED (Shelf.holding books) = (Return tt, w2)
    ∧ file w1 = file w2.
Proof.
  intros books.
  apply (last_status_wins Codec.loads Codec.dumps (Shelf.holding books) books 1
           "lost" Book.LOANED CodecFacts.laws).
  - vm_compute. reflexivity.
  - apply list_elem_of_further, list_elem_of_here.
Defined.

Lemma consecutive_adds_witness :
  let entries := [("Dune", "Herbert", 1965%Z); ("Ubik", "Dick", 1969%Z)] in
  ∃ w' : world,
    Session.run_all Codec.loads Codec.dumps (Entries.adds entries) Shelf.no_file
    = (Return tt, w')
    ∧ _load_books w' = (Return (Entries.numbered 1 entries), w').
Proof.
  intros entries.
  apply (consecutive_adds Codec.loads Codec.dumps Shelf.no_file entries CodecFacts.laws).
  left. reflexivity.
Defined.

Lemma add_then_delete_witness :
  let books := [Shelf.dune; Shelf.solaris] in
  ∃ (new_id : Z) (w' : world),
    _generate_id (Shelf.holding books) = (Return new_id, Shelf.holding books)
    ∧ (add_book "Ubik" "Dick" 1969;; delete_book new_id;; _load_books)
        (Shelf.holding books)
      = (Return books, w').
Proof.
  intros books.
  apply (add_then_delete Codec.loads Codec.dumps (Shelf.holding books) books
           "Ubik" "Dick" 1969 CodecFacts.laws).
  - vm_compute. reflexivity.
  - vm_compute. reflexivity.
Defined.

Lemma add_then_find_witness :
  let books := [Shelf.dune; Shelf.solaris] in
  let w := Shelf.holding books in
  let new_book := Book.Build 2 "Dune Messiah" "Herbert" 1969 Book.AVAILABLE in
  ∃ w' : world,
    (add_book "Dune Messiah" "Herbert" 1969;; find_books "Dune Messiah") w
    = (Return [new_book], w')
    ∧ (add_book "Dune Messiah" "Herbert" 1969;; find_books "Herbert") w
      = (Return [Shelf.dune; new_book], w').
Proof.
  intros books w new_book.
  destruct (add_then_find Codec.loads Codec.dumps Sample.lower Sample.isdigit
              Sample.int w books "Dune Messiah" "Herbert" 1969 CodecFacts.laws)
    as (new_id & w' & Hid & Htitle & Hauthor).
  - vm_compute. reflexivity.
  - vm_compute. reflexivity.
  - assert (new_id = 2%Z) as -> by (vm_compute in Hid; congruence).
    exists w'. split.
    + apply (Htitle []). vm_compute. reflexivity.
    + apply (Hauthor [Shelf.dune]). vm_compute. reflexivity.
Defined.

Lemma main_ends_witness :
  let c := Console.Build None ["1"; "Dune"; "Herbert"; "1965"; "4"; "6"] [] in
  loop 40 c = main c.
Proof.
  intros c.
  apply (proj2 (main_ends Codec.loads Codec.dumps Sample.lower Sample.isdigit Sample.int c)).
  simpl. lia.
Defined.

Lemma unknown_choice_witness :
  let c := Console.Build None ["7"; "6"] [] in
  main c
  = main {| Console.disk := None; Console.stdin := ["6"];
            Console.log := Console.log (Console.chosen c "7" ["6"])
              ++ [Console.Did (Printed "Некорректный выбор. Попробуйте снова.")] |}.
Proof.
  intros c.
  apply (unknown_choice Codec.loads Codec.dumps Sample.lower Sample.isdigit Sample.int c "7" ["6"]).
  - reflexivity.
  - apply (bool_decide_unpack _). vm_compute. exact I.
Defined.

Lemma bad_number_crashes_witness :
  let disk := file (Shelf.holding [Shelf.dune]) in
  (∃ c', main (Console.Build disk ["1"; "Ubik"; "Dick"; "MCMLXIX"; "6"] [])
         = (Console.Crashed (Console.ValueError "MCMLXIX"), c')
         ∧ Console.disk c' = disk ∧ Console.stdin c' = ["6"])
  ∧ (∃ c', main (Console.Build disk ["2"; "MCMLXIX"; "6"] [])
           = (Console.Crashed (Console.ValueError "MCMLXIX"), c')
           ∧ Console.disk c' = disk ∧ Console.stdin c' = ["6"])
  ∧ (∃ c', main (Console.Build disk ["5"; "MCMLXIX"; "6"] [])
           = (Console.Crashed (Console.ValueError "MCMLXIX"), c')
           ∧ Console.disk c' = disk ∧ Console.stdin c' = ["6"]).
Proof.
  intros disk.
  assert (Sample.int "MCMLXIX" = None) as Hint by reflexivity.
  split; [|split].
  - apply (proj1 (bad_number_crashes Codec.loads Codec.dumps Sample.lower Sample.isdigit Sample.int
                    (Console.Build disk ["1"; "Ubik"; "Dick"; "MCMLXIX"; "6"] [])
                    "MCMLXIX" ["6"] Hint) "Ubik" "Dick").
    reflexivity.
  - apply (proj1 (proj2 (bad_number_crashes Codec.loads Codec.dumps Sample.lower Sample.isdigit Sample.int
                    (Console.Build disk ["2"; "MCMLXIX"; "6"] [])
                    "MCMLXIX" ["6"] Hint))).
    reflexivity.
  - apply (proj2 (proj2 (bad_number_crashes Codec.loads Codec.dumps Sample.lower Sample.isdigit Sample.int
                    (Console.Build disk ["5"; "MCMLXIX"; "6"] [])
                    "MCMLXIX" ["6"] Hint))).
    reflexivity.
Defined.

Lemma main_keeps_ids_distinct_witness :
  let c := Console.Build (file (Shelf.holding [Shelf.dune; Shelf.solaris]))
             ["1"; "Ubik"; "Dick"; "1969"; "2"; "1"; "5"; "3"; "x"; "2"; "one"] [] in
  Console.good Codec.loads (main c).2.
Proof.
  intros c.
  apply (main_keeps_ids_distinct Codec.loads Codec.dumps Sample.lower Sample.isdigit Sample.int c
           CodecFacts.laws).
  split.
  - exists [Shelf.dune; Shelf.solaris]. split.
    + vm_compute. reflexivity.
    + apply (bool_decide_unpack _). vm_compute. exact I.
  - vm_compute. reflexivity.
Defined.

Lemma main_leaves_witness :
  let c := Console.Build None ["6"; "1"] [] in
  main c
  = (Console.Done tt,
     {| Console.disk := None; Console.stdin := ["1"];
        Console.log := Console.log (Console.chosen c "6" ["1"])
          ++ [Console.Did (Printed "Выход из приложения. До свидания!")] |})
  ∧ main (Console.Build None [] [])
    = (Console.Crashed Console.EOFError,
       {| Console.disk := None; Console.stdin := [];
          Console.log := Console.menu_log
                         ++ [Console.Asked "Выберите действие: " None] |}).
Proof.
  intros c. split.
  - apply (proj1 (main_leaves Codec.loads Codec.dumps Sample.lower Sample.isdigit Sample.int c)).
    reflexivity.
  - apply (proj2 (main_leaves Codec.loads Codec.dumps Sample.lower Sample.isdigit Sample.int
                    (Console.Build None [] []))).
    reflexivity.
Defined.

End Behaviour.
